(** * The URL store of the shortener service (urlService.js)

    A shallow embedding of the [URLService] class and of the two module-level
    maps it works on, followed by the properties of the store.

    Conventions of the embedding.
    - A JavaScript value that reaches the service from a request body is a
      [jsval]: undefined, null, a boolean, a number or a string.  Numbers are
      the integer-valued ones, held in [Z].
    - An instant is the number of milliseconds since the epoch, in [Z].  The
      service stores instants as ISO-8601 strings ([toISOString]) and reads
      them back with [moment(string)]; such a string and the instant it
      denotes determine each other, so a stored string is represented by its
      instant.  This is how [Date] and moment behave on the instants [Date]
      can hold ([valid_instant]); past that range a moment is invalid and
      prints as null, which the embedding does not represent: a property
      that reads a stored or returned instant as a date says so with
      [valid_instant].
    - [try { ... } catch (error) { logError(...); throw error; }] is the body
      itself: logging has no effect on the store.
    - Three things the service calls are not part of the repository: the
      [URL] constructor of the platform, the [nanoid] package and the
      [moment] package.  The first is a parameter of the development, the
      other two are modelled after their documented behaviour (see below). *)

From Stdlib Require Import ZArith Ascii Lia.
From stdpp Require Import base option list gmap strings.

Local Open Scope Z_scope.

(** ** JavaScript values *)

Inductive jsval : Type :=
  | JUndefined
  | JNull
  | JBool (b : bool)
  | JNum (n : Z)
  | JStr (s : string).

(** [ToBoolean]: what [if (v)], [!v], [v && ...] and [v || ...] test. *)
Definition truthy (v : jsval) : bool :=
  match v with
  | JUndefined | JNull => false
  | JBool b => b
  | JNum n => negb (n =? 0)
  | JStr s => negb (String.eqb s "")
  end.

(** A default parameter value [f(x = d)] replaces [undefined] only. *)
Definition default_param (v d : jsval) : jsval :=
  match v with
  | JUndefined => d
  | _ => v
  end.

(** [a || b] on values. *)
Definition js_or (a b : jsval) : jsval := if truthy a then a else b.

(** ** Data model *)

Record ClickData : Type := mkClick {
  timestamp : Z;
  referrer : jsval;
  ip : jsval;
  location : string
}.

Record UrlEntry : Type := mkEntry {
  id : string;
  originalURL : jsval;
  shortcode : string;
  createdAt : Z;
  expiryTime : Z;
  clicks : list ClickData;
  totalClicks : nat
}.

(** The object returned by [createShortURL]. *)
Record Created : Type := mkCreated {
  shortLink : string;
  expiry : Z
}.

(** The statistics shape returned by [getURLStatistics] and [getAllURLs]. *)
Module Stats.
Record click : Type := mkClick {
  timestamp : Z;
  source : jsval;
  location : string
}.
Record t : Type := mk {
  shortLink : string;
  originalURL : jsval;
  createdAt : Z;
  expiryTime : Z;
  totalClicks : nat;
  clicks : list click
}.
End Stats.

(** ** A JavaScript [Map] with string keys, in insertion order

    [Map.prototype.set] on a key that is present replaces the value and keeps
    the key's position; on a new key it appends.  [values()] iterates in
    insertion order. *)

Section OrderedMap.
Context {V : Type}.

Fixpoint map_get (k : string) (m : list (string * V)) : option V :=
  match m with
  | [] => None
  | (k', v) :: rest => if String.eqb k k' then Some v else map_get k rest
  end.

Fixpoint map_set (k : string) (v : V) (m : list (string * V)) : list (string * V) :=
  match m with
  | [] => [(k, v)]
  | (k', v') :: rest =>
      if String.eqb k k' then (k, v) :: rest else (k', v') :: map_set k v rest
  end.

Definition map_values (m : list (string * V)) : list V := snd <$> m.
End OrderedMap.

(** ** The process state

    [urlStore] and [shortcodeToUrl] are the two module-level maps.  The order
    of [shortcodeToUrl] is never observed, so it is a finite map.  [drawn]
    counts the random bytes [nanoid] has consumed so far. *)

Record World : Type := mkWorld {
  urlStore : list (string * UrlEntry);
  shortcodeToUrl : gmap string string;
  drawn : nat
}.

Definition initial : World :=
  {| urlStore := []; shortcodeToUrl := ∅; drawn := 0 |}.

(** ** Exceptions and state

    The service throws [new Error(message)]; the five messages are the five
    error kinds the HTTP adapter tells apart. *)

Inductive error : Type :=
  | InvalidURL            (* 'Invalid URL format' *)
  | InvalidValidity       (* 'Validity must be a positive integer' *)
  | InvalidShortcode      (* 'Custom shortcode must be alphanumeric and 3-20 characters long' *)
  | ShortcodeCollision    (* 'Custom shortcode already exists' *)
  | GenerationExhausted.  (* 'Unable to generate unique shortcode' *)

Inductive outcome (A : Type) : Type :=
  | Returned (a : A)
  | Thrown (e : error).
Arguments Returned {A} a.
Arguments Thrown {A} e.

(** A computation runs on a state and leaves a state, also when it throws:
    what was written before the [throw] stays written. *)
Definition M (A : Type) : Type := World → outcome A * World.

Definition ret {A} (a : A) : M A := λ w, (Returned a, w).
Definition throw {A} (e : error) : M A := λ w, (Thrown e, w).
Definition bind {A B} (c : M A) (k : A → M B) : M B :=
  λ w, match c w with
       | (Returned a, w') => k a w'
       | (Thrown e, w') => (Thrown e, w')
       end.
Definition try_catch {A} (body : M A) (handler : error → M A) : M A :=
  λ w, match body w with
       | (Returned a, w') => (Returned a, w')
       | (Thrown e, w') => handler e w'
       end.
Definition gets {A} (f : World → A) : M A := λ w, (Returned (f w), w).
Definition modify (f : World → World) : M unit := λ w, (Returned tt, f w).

Notation "'let*' x ':=' c 'in' k" := (bind c (λ x, k))
  (at level 10, x name, c at level 100, k at level 200).
Notation "'do' c 'then' k" := (bind c (λ _, k))
  (at level 10, c at level 100, k at level 200).

Definition set_urlStore (k : string) (e : UrlEntry) (w : World) : World :=
  {| urlStore := map_set k e (urlStore w);
     shortcodeToUrl := shortcodeToUrl w;
     drawn := drawn w |}.

Definition set_shortcodeToUrl (k v : string) (w : World) : World :=
  {| urlStore := urlStore w;
     shortcodeToUrl := <[k := v]> (shortcodeToUrl w);
     drawn := drawn w |}.

(** ** moment

    A moment object is mutable: [m.add(n, 'minutes')] changes [m] itself and
    returns [m].  The moments a call creates live in a heap local to the
    call, addressed by position. *)

Definition moments : Type := list Z.

(** The instants [Date] can hold: 8.64e15 milliseconds either side of the
    epoch.  [moment_add] and [toISOString] below are the behaviour of a
    moment whose instant is and stays in this range. *)
Definition valid_instant (t : Z) : Prop :=
  -8640000000000000 ≤ t ≤ 8640000000000000.

Definition moment (now : Z) (h : moments) : nat * moments :=
  (length h, h ++ [now]).

Definition moment_add (m : nat) (minutes : Z) (h : moments) : nat * moments :=
  (m, alter (λ t, t + minutes * 60000) m h).

Definition toISOString (m : nat) (h : moments) : Z := default 0 (h !! m).

(** [moment().isAfter(iso)]: strictly later, to the millisecond. *)
Definition isAfter (now iso : Z) : bool := iso <? now.

(** The amount [add] receives.  A number is taken as it is; any other value
    is coerced with unary plus, which sends [null], [false] and the empty
    string to 0 and [true] to 1.  A non-empty string never gets as far as
    [add]: the validity guard of [createShortURL] throws first. *)
Definition add_amount (v : jsval) : Z :=
  match v with
  | JNum n => n
  | JBool true => 1
  | _ => 0
  end.

(** [urlEntry.clicks.push(clickData); urlEntry.totalClicks++]: the entry is
    the object held by [urlStore], changed in place. *)
Definition push_click (urlEntry : UrlEntry) (clickData : ClickData) : UrlEntry :=
  {| id := id urlEntry;
     originalURL := originalURL urlEntry;
     shortcode := shortcode urlEntry;
     createdAt := createdAt urlEntry;
     expiryTime := expiryTime urlEntry;
     clicks := clicks urlEntry ++ [clickData];
     totalClicks := S (totalClicks urlEntry) |}.

(** ** nanoid

    [nanoid(size)] reads [size] bytes from the random pool and maps each one
    to [urlAlphabet[byte & 63]].  The alphabet has 64 characters: the letters,
    the digits, and the two characters '_' and '-'. *)

Definition urlAlphabet : string :=
  "useandom-26T198340PX75pxJACKVERYMINDBUSHWOLF_GQZbfghjklqvwyzrict".

Definition alphabet_char (byte : N) : ascii :=
  default "u"%char (String.get (N.to_nat (N.land byte 63)) urlAlphabet).

(** ** The HTTP adapter: requests and responses (server.js)

    A response is what the handler hands to [res]: a status with a JSON
    body, or [res.redirect(status, url)] with the URL it was given. *)

Inductive payload : Type :=
  | PCreated (result : Created)
  | PStatistics (statistics : Stats.t)
  | PUrls (urls : list Stats.t)
  | PError (error message : string).

Inductive response : Type :=
  | Json (status : nat) (body : payload)
  | Redirect (status : nat) (url : jsval).

(** [res.statusCode] *)
Definition status (r : response) : nat :=
  match r with
  | Json status _ => status
  | Redirect status _ => status
  end.

(** [s.includes(search)] *)
Definition includes (s search : string) : bool :=
  bool_decide (is_Some (String.index 0 search s)).

(** [error.message] of the errors the service throws. *)
Definition message (e : error) : string :=
  match e with
  | InvalidURL => "Invalid URL format"
  | InvalidValidity => "Validity must be a positive integer"
  | InvalidShortcode => "Custom shortcode must be alphanumeric and 3-20 characters long"
  | ShortcodeCollision => "Custom shortcode already exists"
  | GenerationExhausted => "Unable to generate unique shortcode"
  end.

(** [req.body] of POST /shorturls, an object whose three properties may be
    undefined. *)
Record CreateBody : Type := mkBody {
  body_url : jsval;
  body_validity : jsval;
  body_shortcode : jsval
}.

(** What GET /:shortcode reads of its request: the route parameter,
    [req.get('Referrer')], [req.get('referer')], [req.ip] and
    [req.connection.remoteAddress]. *)
Record RedirectRequest : Type := mkRedirect {
  param_shortcode : string;
  get_Referrer : jsval;
  get_referer : jsval;
  req_ip : jsval;
  remoteAddress : jsval
}.

(** The [catch] block of POST /shorturls, on the message of the error. *)
Definition post_shorturls_catch (error_message : string) : response :=
  if includes error_message "Invalid URL format" then
    Json 400 (PError "Invalid URL format"
                "Please provide a valid URL starting with http:// or https://")
  else if includes error_message "Validity must be a positive integer" then
    Json 400 (PError "Invalid validity period"
                "Validity must be a positive integer representing minutes")
  else if includes error_message "Custom shortcode must be alphanumeric" then
    Json 400 (PError "Invalid custom shortcode"
                "Custom shortcode must be alphanumeric and 3-20 characters long")
  else if includes error_message "Custom shortcode already exists" then
    Json 409 (PError "Shortcode collision"
                "The provided custom shortcode already exists. Please choose a different one.")
  else if includes error_message "Unable to generate unique shortcode" then
    Json 500 (PError "Service temporarily unavailable"
                "Unable to generate a unique shortcode. Please try again.")
  else
    Json 500 (PError "Internal server error"
                "An unexpected error occurred while creating the short URL").

(** ** The pages of the client (Statistics.js, URLShortener.js)

    Of the components, the functions that compute on data: the expiry test
    of the statistics page and the three functions that rebuild the list of
    rows of the shortener form.  Each of the three is the list it hands to
    [setUrls], or the list it was called on when it returns before. *)

Module Client.

(** [new Date() > new Date(expiryTime)], for the ISO string of a
    [valid_instant]. *)
Definition isExpired (now expiryTime : Z) : bool := expiryTime <? now.

(** A row identifier: [Math.max] of no number is [-Infinity]. *)
Inductive number : Type :=
  | NegInfinity
  | Num (n : Z).

Definition Math_max (xs : list number) : number :=
  foldr (λ x acc,
           match x, acc with
           | Num a, Num b => Num (Z.max a b)
           | Num a, NegInfinity => Num a
           | NegInfinity, _ => acc
           end) NegInfinity xs.

Definition plus_one (x : number) : number :=
  match x with
  | NegInfinity => NegInfinity
  | Num n => Num (n + 1)
  end.

Definition number_eqb (x y : number) : bool :=
  match x, y with
  | NegInfinity, NegInfinity => true
  | Num a, Num b => a =? b
  | _, _ => false
  end.

Record Row : Type := mkRow {
  id : number;
  url : string;
  validity : string;
  shortcode : string;
  loading : bool;
  result : option Created;
  error : option string
}.

Inductive field : Type := FUrl | FValidity | FShortcode.

Definition initial_urls : list Row :=
  [mkRow (Num 1) "" "" "" false None None].

Definition addUrl (urls : list Row) : list Row :=
  if (5 <=? length urls)%nat then urls
  else
    let newId := plus_one (Math_max (id <$> urls)) in
    urls ++ [mkRow newId "" "" "" false None None].

Definition removeUrl (rowId : number) (urls : list Row) : list Row :=
  if (length urls =? 1)%nat then urls
  else List.filter (λ u, negb (number_eqb (id u) rowId)) urls.

Definition updateUrl (rowId : number) (f : field) (value : string)
    (urls : list Row) : list Row :=
  (λ u, if number_eqb (id u) rowId then
          match f with
          | FUrl => mkRow (id u) value (validity u) (shortcode u) (loading u) None None
          | FValidity => mkRow (id u) (url u) value (shortcode u) (loading u) None None
          | FShortcode => mkRow (id u) (url u) (validity u) value (loading u) None None
          end
        else u) <$> urls.

(** The lists the form can show: the initial one and what the three
    functions make of one it can show. *)
Inductive shown : list Row → Prop :=
  | shown_initial : shown initial_urls
  | shown_add urls : shown urls → shown (addUrl urls)
  | shown_remove rowId urls : shown urls → shown (removeUrl rowId urls)
  | shown_update rowId f value urls : shown urls → shown (updateUrl rowId f value urls).

End Client.

(** ** Stand-ins used to run the service on examples

    [sample_protocol] answers as the [URL] constructor does on the inputs of
    the examples below: an absolute http or https address has that scheme,
    and a string without a scheme does not parse.  [sample_bytes] is one
    possible content of the random pool, and [stuck_bytes] a degenerate one. *)

Definition sample_protocol (url : jsval) : option string :=
  match url with
  | JStr s =>
      if String.prefix "http://" s then Some "http:"
      else if String.prefix "https://" s then Some "https:"
      else None
  | _ => None
  end.

Definition sample_bytes (i : nat) : N := N.of_nat (40 + i).

(** A pool that delivers the same byte for ever. *)
Definition stuck_bytes (i : nat) : N := 0%N.

(** The state after one creation from the empty maps with these stand-ins,
    at clock 1000 and with validity 30 (see [sample_world_reached]). *)
Definition sample_entry : UrlEntry :=
  {| id := "bfghjklqvwyzrictusean";
     originalURL := JStr "https://example.com/page";
     shortcode := "WOLF_GQZ";
     createdAt := 1801000;
     expiryTime := 1801000;
     clicks := [];
     totalClicks := 0 |}.

Definition sample_world : World :=
  {| urlStore := [("bfghjklqvwyzrictusean", sample_entry)];
     shortcodeToUrl := {["WOLF_GQZ" := "bfghjklqvwyzrictusean"]};
     drawn := 29 |}.

(** The sample world after one visit of the sample link, at clocks 2000 and
    2001, with a referrer and no address. *)
Definition sample_click : ClickData :=
  {| timestamp := 2001;
     referrer := JStr "https://google.com";
     ip := JStr "unknown";
     location := "Unknown" |}.

Definition sample_clicked : World :=
  {| urlStore := [("bfghjklqvwyzrictusean", push_click sample_entry sample_click)];
     shortcodeToUrl := {["WOLF_GQZ" := "bfghjklqvwyzrictusean"]};
     drawn := 29 |}.

(** The entry of a second creation, with the stuck pool, that is given the
    identifier of the first. *)
Definition reused_entry : UrlEntry :=
  {| id := "uuuuuuuuuuuuuuuuuuuuu";
     originalURL := JStr "https://other.example/";
     shortcode := "def456";
     createdAt := 1802000;
     expiryTime := 1802000;
     clicks := [];
     totalClicks := 0 |}.

(** A visit of the sample link. *)
Definition sample_visit : RedirectRequest :=
  {| param_shortcode := "WOLF_GQZ";
     get_Referrer := JStr "https://google.com";
     get_referer := JStr "https://google.com";
     req_ip := JUndefined;
     remoteAddress := JUndefined |}.

(** The sample world after a second creation, with the custom shortcode
    "abc123", at clock 3000 and with validity 5. *)
Definition second_entry : UrlEntry :=
  {| id := "dom-26T198340PX75pxJA";
     originalURL := JStr "https://example.com/other";
     shortcode := "abc123";
     createdAt := 303000;
     expiryTime := 303000;
     clicks := [];
     totalClicks := 0 |}.

Definition second_world : World :=
  {| urlStore := [("bfghjklqvwyzrictusean", sample_entry);
                  ("dom-26T198340PX75pxJA", second_entry)];
     shortcodeToUrl := <["abc123" := "dom-26T198340PX75pxJA"]>
                         {["WOLF_GQZ" := "bfghjklqvwyzrictusean"]};
     drawn := 50 |}.

Definition second_created : Created :=
  {| shortLink := "http://localhost:5000/abc123"; expiry := 303000 |}.

Definition sample_created : Created :=
  {| shortLink := "http://localhost:5000/WOLF_GQZ"; expiry := 1801000 |}.

(** ** The service *)

Section URLService.

(** [url_protocol url] is [new URL(url).protocol], or [None] when the
    constructor throws. *)
Variable url_protocol : jsval → option string.

(** [random_byte i] is the [i]-th byte the random pool delivers. *)
Variable random_byte : nat → N.

Fixpoint nanoid_from (size pos : nat) : string :=
  match size with
  | O => ""
  | S size' => String (alphabet_char (random_byte pos)) (nanoid_from size' (S pos))
  end.

Definition nanoid (size : nat) : M string :=
  λ w, (Returned (nanoid_from size (drawn w)),
        {| urlStore := urlStore w;
           shortcodeToUrl := shortcodeToUrl w;
           drawn := (drawn w + size)%nat |}).

Definition validateURL (url : jsval) : bool :=
  match url_protocol url with
  | Some protocol => String.eqb protocol "http:" || String.eqb protocol "https:"
  | None => false
  end.

(** One character of the class [[a-zA-Z0-9]]. *)
Definition alnum (c : ascii) : bool :=
  let n := Ascii.nat_of_ascii c in
  ((97 <=? n) && (n <=? 122) || (65 <=? n) && (n <=? 90) || (48 <=? n) && (n <=? 57))%nat.

(** [/^[a-zA-Z0-9]{3,20}$/.test(s)] *)
Definition shortcodeRegex (s : string) : bool :=
  ((3 <=? String.length s) && (String.length s <=? 20))%nat
  && forallb alnum (String.list_ascii_of_string s).

Definition validateShortcode (shortcode : jsval) : bool :=
  match shortcode with
  | JStr s => if negb (truthy shortcode) then false else shortcodeRegex s
  | _ => false   (* falsy, or typeof shortcode !== 'string' *)
  end.

Definition maxAttempts : nat := 10.

(** The do-while loop of [generateShortcode].  [attempts] is the counter of
    the source; [fuel] bounds the number of iterations, and the loop leaves
    by itself before [S maxAttempts] of them. *)
Fixpoint generateShortcode_loop (fuel attempts : nat) : M string :=
  match fuel with
  | O => throw GenerationExhausted
  | S fuel' =>
      let* shortcode := nanoid 8 in
      let attempts := S attempts in
      if (maxAttempts <? attempts)%nat then throw GenerationExhausted
      else
        let* taken := gets (λ w, bool_decide (is_Some (shortcodeToUrl w !! shortcode))) in
        if taken then generateShortcode_loop fuel' attempts
        else ret shortcode
  end.

Definition generateShortcode : M string :=
  generateShortcode_loop (S maxAttempts) 0.

(** [validity && (typeof validity !== 'number' || validity <= 0)] *)
Definition validity_rejected (validity : jsval) : bool :=
  truthy validity &&
  match validity with
  | JNum n => n <=? 0
  | _ => true
  end.

Definition createShortURL (originalURL validity customShortcode : jsval) (now : Z)
  : M Created :=
  let validity := default_param validity (JNum 30) in
  let customShortcode := default_param customShortcode JNull in
  if negb (validateURL originalURL) then throw InvalidURL
  else if validity_rejected validity then throw InvalidValidity
  else
    let* shortcode :=
      (if truthy customShortcode then
         if negb (validateShortcode customShortcode) then throw InvalidShortcode
         else
           match customShortcode with
           | JStr custom =>
               let* taken := gets (λ w, bool_decide (is_Some (shortcodeToUrl w !! custom))) in
               if taken then throw ShortcodeCollision
               else ret custom
           | _ => throw InvalidShortcode   (* only a string passes validateShortcode *)
           end
       else generateShortcode) in
    let '(createdAt, heap) := moment now [] in
    let '(expiryTime, heap) := moment_add createdAt (add_amount validity) heap in
    let* fresh := nanoid 21 in
    let urlEntry :=
      {| id := fresh;
         originalURL := originalURL;
         shortcode := shortcode;
         createdAt := toISOString createdAt heap;
         expiryTime := toISOString expiryTime heap;
         clicks := [];
         totalClicks := 0 |} in
    do modify (set_urlStore (id urlEntry) urlEntry) then
    do modify (set_shortcodeToUrl shortcode (id urlEntry)) then
    ret {| shortLink := "http://localhost:5000/" +:+ shortcode;
           expiry := toISOString expiryTime heap |}.

Definition getURLByShortcode (shortcode : string) (now : Z) (w : World)
  : option UrlEntry :=
  match shortcodeToUrl w !! shortcode with
  | None => None
  | Some urlId =>
      if negb (truthy (JStr urlId)) then None
      else
        match map_get urlId (urlStore w) with
        | None => None
        | Some urlEntry =>
            if isAfter now (expiryTime urlEntry) then None
            else Some urlEntry
        end
  end.

(** [now] is the clock at the expiry test, [stamp] the clock when the click
    is built. *)
Definition recordClick (shortcode : string) (referrer ip : jsval) (now stamp : Z)
  : M bool :=
  let referrer := default_param referrer JNull in
  let ip := default_param ip JNull in
  try_catch
    (let* urlId := gets (λ w, shortcodeToUrl w !! shortcode) in
     match urlId with
     | None => ret false
     | Some urlId =>
         if negb (truthy (JStr urlId)) then ret false
         else
           let* urlEntry := gets (λ w, map_get urlId (urlStore w)) in
           match urlEntry with
           | None => ret false
           | Some urlEntry =>
               if isAfter now (expiryTime urlEntry) then ret false
               else
                 let clickData :=
                   {| timestamp := stamp;
                      referrer := js_or referrer (JStr "direct");
                      ip := js_or ip (JStr "unknown");
                      location := "Unknown" |} in
                 do modify (set_urlStore urlId (push_click urlEntry clickData)) then
                 ret true
           end
     end)
    (λ _, ret false).

Definition click_view (click : ClickData) : Stats.click :=
  {| Stats.timestamp := timestamp click;
     Stats.source := referrer click;
     Stats.location := location click |}.

(** The object literal shared by [getURLStatistics] and [getAllURLs]. *)
Definition statistics (code : string) (urlEntry : UrlEntry) : Stats.t :=
  {| Stats.shortLink := "http://localhost:5000/" +:+ code;
     Stats.originalURL := originalURL urlEntry;
     Stats.createdAt := createdAt urlEntry;
     Stats.expiryTime := expiryTime urlEntry;
     Stats.totalClicks := totalClicks urlEntry;
     Stats.clicks := click_view <$> clicks urlEntry |}.

Definition getURLStatistics (shortcode : string) (now : Z) (w : World)
  : option Stats.t :=
  match getURLByShortcode shortcode now w with
  | None => None
  | Some urlEntry => Some (statistics shortcode urlEntry)
  end.

Definition getAllURLs (w : World) : list Stats.t :=
  (λ urlEntry, statistics (shortcode urlEntry) urlEntry) <$> map_values (urlStore w).

(** ** Histories

    [created_by r w e]: [e] is the entry that the store [w] holds for the
    link [r] that a call of [createShortURL] returned. *)
Definition created_by (r : Created) (w : World) (e : UrlEntry) : Prop :=
  shortLink r = "http://localhost:5000/" +:+ shortcode e ∧
  shortcodeToUrl w !! shortcode e = Some (id e) ∧
  map_get (id e) (urlStore w) = Some e.

(** [run w log]: the process reaches [w] from the empty maps by calls of
    [createShortURL] and [recordClick]; [log] lists the entries the
    successful creations stored, the latest first. *)
Inductive run : World → list UrlEntry → Prop :=
  | run_initial : run initial []
  | run_created url validity custom now w log r w' e :
      run w log →
      createShortURL url validity custom now w = (Returned r, w') →
      created_by r w' e →
      run w' (e :: log)
  | run_rejected url validity custom now w log err w' :
      run w log →
      createShortURL url validity custom now w = (Thrown err, w') →
      run w' log
  | run_click code referrer ip now stamp w log res w' :
      run w log →
      recordClick code referrer ip now stamp w = (res, w') →
      run w' log.

(** Every value of the shortcode index is a non-empty identifier under
    which [urlStore] holds an entry. *)
Definition index_resolves (w : World) : Prop :=
  ∀ code urlId, shortcodeToUrl w !! code = Some urlId →
    urlId ≠ "" ∧ is_Some (map_get urlId (urlStore w)).

(** The entries [urlStore] holds have their shortcodes in the index, and
    entries under different identifiers have different shortcodes. *)
Definition store_codes_distinct (w : World) : Prop :=
  (∀ urlId e, map_get urlId (urlStore w) = Some e →
     is_Some (shortcodeToUrl w !! shortcode e)) ∧
  (∀ id1 id2 e1 e2,
     id1 ≠ id2 →
     map_get id1 (urlStore w) = Some e1 →
     map_get id2 (urlStore w) = Some e2 →
     shortcode e1 ≠ shortcode e2).

(** A character of nanoid's alphabet. *)
Definition url_safe (c : ascii) : bool :=
  alnum c || Ascii.eqb c "_" || Ascii.eqb c "-".

(** The object [clickData] that [recordClick] builds, as a function of the
    arguments of the call. *)
Definition clickData_of (referrer ip : jsval) (stamp : Z) : ClickData :=
  {| timestamp := stamp;
     referrer := js_or (default_param referrer JNull) (JStr "direct");
     ip := js_or (default_param ip JNull) (JStr "unknown");
     location := "Unknown" |}.

(** The state after [n] more bytes of the pool are consumed. *)
Definition advance (n : nat) (w : World) : World :=
  {| urlStore := urlStore w;
     shortcodeToUrl := shortcodeToUrl w;
     drawn := (drawn w + n)%nat |}.

(** The code that the [i]-th call of [nanoid(8)] from state [w] returns,
    counting from 0. *)
Definition candidate (w : World) (i : nat) : string :=
  nanoid_from 8 (drawn w + 8 * i).

(** ** Sequences of calls *)

(** [steps w w']: calls of [createShortURL] and [recordClick], whatever their
    arguments and outcomes, lead from [w] to [w']. *)
Inductive steps : World → World → Prop :=
  | steps_refl w : steps w w
  | steps_create url validity custom now w w1 res w2 :
      steps w w1 →
      createShortURL url validity custom now w1 = (res, w2) →
      steps w w2
  | steps_click code referrer ip now stamp w w1 res w2 :
      steps w w1 →
      recordClick code referrer ip now stamp w1 = (res, w2) →
      steps w w2.

(** One call of [recordClick] on [shortcode] for each element of [hits], in
    order; an element is the referrer, the address and the two clock
    readings of its call. *)
Fixpoint recordClicks (shortcode : string) (hits : list (jsval * jsval * Z * Z))
  : M (list bool) :=
  match hits with
  | [] => ret []
  | (referrer, ip, now, stamp) :: rest =>
      let* ok := recordClick shortcode referrer ip now stamp in
      let* oks := recordClicks shortcode rest in
      ret (ok :: oks)
  end.

(** ** The HTTP adapter: handlers (server.js)

    A handler is the body of the route's function; [logInfo] and [logError]
    write no state.  The clock readings of the service calls a handler makes
    are arguments. *)

Definition post_shorturls (body : CreateBody) (now : Z) : M response :=
  try_catch
    (let url := body_url body in
     let validity := body_validity body in
     let shortcode := body_shortcode body in
     if negb (truthy url) then
       ret (Json 400 (PError "URL is required"
                        "Please provide a valid URL to shorten"))
     else
       let* result := createShortURL url validity shortcode now in
       ret (Json 201 (PCreated result)))
    (λ error, ret (post_shorturls_catch (message error))).

Definition get_shorturls_shortcode (shortcode : string) (now : Z) : M response :=
  try_catch
    (let* statistics := gets (getURLStatistics shortcode now) in
     match statistics with
     | None =>
         ret (Json 404 (PError "Short URL not found"
                          "The requested short URL does not exist or has expired"))
     | Some statistics => ret (Json 200 (PStatistics statistics))
     end)
    (λ _, ret (Json 500 (PError "Internal server error"
                           "An unexpected error occurred while retrieving statistics"))).

(** [now] is the clock of the lookup, [now'] and [stamp] are the two clocks
    of [recordClick].  [urlEntry.originalURL] is read after [recordClick]
    from the object the lookup returned, which [recordClick] changes in
    [clicks] and [totalClicks] only. *)
Definition get_shortcode (req : RedirectRequest) (now now' stamp : Z) : M response :=
  try_catch
    (let shortcode := param_shortcode req in
     if includes shortcode "." || String.eqb shortcode "favicon.ico"
        || String.eqb shortcode "manifest.json" then
       ret (Json 404 (PError "Not found" "Static file not found"))
     else
       let* urlEntry := gets (getURLByShortcode shortcode now) in
       match urlEntry with
       | None =>
           ret (Json 404 (PError "Short URL not found"
                            "The requested short URL does not exist or has expired"))
       | Some urlEntry =>
           let referrer := js_or (get_Referrer req) (get_referer req) in
           let ip := js_or (req_ip req) (remoteAddress req) in
           do recordClick shortcode referrer ip now' stamp then
           ret (Redirect 301 (originalURL urlEntry))
       end)
    (λ _, ret (Json 500 (PError "Internal server error"
                           "An unexpected error occurred while processing the redirect"))).

Definition get_api_urls : M response :=
  try_catch
    (let* urls := gets getAllURLs in
     ret (Json 200 (PUrls urls)))
    (λ _, ret (Json 500 (PError "Internal server error"
                           "An unexpected error occurred while retrieving URLs"))).

(** ** The ordered map *)

Lemma map_get_set_eq {V} k (v : V) m : map_get k (map_set k v m) = Some v.
Proof.
  induction m as [|[k' v'] m IH]; simpl.
  - by rewrite String.eqb_refl.
  - destruct (String.eqb k k') eqn:E; simpl; rewrite ?E, ?String.eqb_refl; done.
Qed.

Lemma map_get_set_ne {V} k k' (v : V) m :
  k ≠ k' → map_get k' (map_set k v m) = map_get k' m.
Proof.
  intros Hne. induction m as [|[k0 v0] m IH]; simpl.
  - destruct (String.eqb k' k) eqn:E; [|done].
    apply String.eqb_eq in E. congruence.
  - destruct (String.eqb k k0) eqn:E; simpl.
    + apply String.eqb_eq in E. subst k0.
      destruct (String.eqb k' k) eqn:E'; [|done].
      apply String.eqb_eq in E'. congruence.
    + by rewrite IH.
Qed.

Lemma map_get_set {V} k k' (v : V) m :
  map_get k' (map_set k v m) = if decide (k = k') then Some v else map_get k' m.
Proof.
  case_decide as H; [subst; apply map_get_set_eq | by apply map_get_set_ne].
Qed.

Lemma map_set_keys_present {V} k (v v0 : V) m :
  map_get k m = Some v0 → (map_set k v m).*1 = m.*1.
Proof.
  induction m as [|[k' v'] m IH]; simpl; [done|].
  destruct (String.eqb k k') eqn:E; csimpl.
  - apply String.eqb_eq in E. by subst.
  - intros H. f_equal. by apply IH.
Qed.

Lemma map_set_lookup_ne {V} k (v : V) m i k' v' :
  m !! i = Some (k', v') → k' ≠ k → map_set k v m !! i = Some (k', v').
Proof.
  revert i. induction m as [|[k0 v0] m IH]; intros i; simpl; [done|].
  destruct (String.eqb k k0) eqn:E.
  - apply String.eqb_eq in E. subst k0.
    destruct i as [|i]; simpl; [|done]. intros [= <- <-]. done.
  - destruct i as [|i]; simpl; [done|]. apply IH.
Qed.

Lemma map_get_Some_elem {V} k (v : V) m :
  map_get k m = Some v → (k, v) ∈ m.
Proof.
  induction m as [|[k' v'] m IH]; simpl; [done|].
  destruct (String.eqb k k') eqn:E.
  - apply String.eqb_eq in E. intros [= ->]. subst. left.
  - intros H. right. by apply IH.
Qed.

(** ** nanoid *)

Lemma nanoid_from_length size pos : String.length (nanoid_from size pos) = size.
Proof. revert pos. induction size as [|n IH]; intros pos; simpl; [done | by rewrite IH]. Qed.

Lemma nanoid_from_nonempty size pos : nanoid_from (S size) pos ≠ "".
Proof. done. Qed.

Lemma alphabet_char_url_safe byte : url_safe (alphabet_char byte) = true.
Proof.
  unfold alphabet_char.
  assert (N.to_nat (N.land byte 63) < 64)%nat as Hlt.
  { assert (N.land byte 63 < 64)%N; [|lia].
    change 63%N with (N.ones 6). rewrite N.land_ones.
    apply N.mod_upper_bound. done. }
  revert Hlt. generalize (N.to_nat (N.land byte 63)). intros n Hlt.
  do 64 (destruct n as [|n]; [vm_compute; reflexivity|]). lia.
Qed.

Lemma nanoid_from_url_safe size pos :
  forallb url_safe (String.list_ascii_of_string (nanoid_from size pos)) = true.
Proof.
  revert pos. induction size as [|n IH]; intros pos; simpl; [done|].
  by rewrite alphabet_char_url_safe, IH.
Qed.

(** ** generateShortcode *)

(** The loop writes to neither map; a code it returns is the last
    [nanoid(8)] it drew and is not a key of the index; the only error it
    throws is the exhaustion one. *)
Lemma generateShortcode_loop_inv fuel attempts w res w' :
  generateShortcode_loop fuel attempts w = (res, w') →
  urlStore w' = urlStore w ∧ shortcodeToUrl w' = shortcodeToUrl w ∧
  match res with
  | Returned code =>
      shortcodeToUrl w !! code = None ∧ ∃ pos, code = nanoid_from 8 pos
  | Thrown e => e = GenerationExhausted
  end.
Proof.
  revert attempts w. induction fuel as [|fuel IH]; intros attempts w; simpl.
  - intros [= <- <-]. done.
  - unfold bind, nanoid, gets, throw, ret; simpl.
    destruct (maxAttempts <? S attempts)%nat.
    + intros [= <- <-]. done.
    + case_bool_decide as Htaken.
      * intros H. apply IH in H as (Hs & Hi & H). simpl in *. done.
      * intros [= <- <-]. simpl. split_and!; [done..| |by eexists].
        by apply eq_None_not_Some.
Qed.

(** More fuel than [S maxAttempts - attempts] changes nothing: the counter
    ends the loop, not the fuel. *)
Lemma generateShortcode_loop_fuel fuel attempts w :
  (attempts ≤ maxAttempts)%nat →
  (S maxAttempts ≤ fuel + attempts)%nat →
  generateShortcode_loop fuel attempts w =
  generateShortcode_loop (S maxAttempts - attempts) attempts w.
Proof.
  revert attempts w. induction fuel as [|fuel IH]; intros attempts w Hle Hfuel.
  - lia.
  - replace (S maxAttempts - attempts)%nat
      with (S (S maxAttempts - S attempts))%nat by lia.
    cbn [generateShortcode_loop]. unfold bind.
    destruct (nanoid 8 w) as [[code|err] w1]; [|done].
    destruct (maxAttempts <? S attempts)%nat eqn:Hcmp; [done|].
    apply Nat.ltb_ge in Hcmp.
    destruct (gets _ w1) as [[[|]|err] w2]; [|done..].
    apply IH; lia.
Qed.

(** ** createShortURL *)

Lemma validateShortcode_string c :
  validateShortcode c = true → ∃ s, c = JStr s ∧ shortcodeRegex s = true.
Proof.
  destruct c as [| |b|n|s]; simpl; try done.
  destruct (negb (negb (s =? "")%string)); [done|]. eauto.
Qed.

(** What a call of [createShortURL] does, by its outcome. *)
Lemma createShortURL_inv url validity custom now w res w' :
  createShortURL url validity custom now w = (res, w') →
  let validity' := default_param validity (JNum 30) in
  let custom' := default_param custom JNull in
  match res with
  | Thrown err =>
      urlStore w' = urlStore w ∧ shortcodeToUrl w' = shortcodeToUrl w
  | Returned r =>
      validateURL url = true ∧ validity_rejected validity' = false ∧
      ∃ code pos,
        shortcodeToUrl w !! code = None ∧
        (if truthy custom'
         then custom' = JStr code ∧ shortcodeRegex code = true
         else ∃ p, code = nanoid_from 8 p) ∧
        let t := now + add_amount validity' * 60000 in
        let e := mkEntry (nanoid_from 21 pos) url code t t [] 0 in
        r = mkCreated ("http://localhost:5000/" +:+ code) t ∧
        urlStore w' = map_set (id e) e (urlStore w) ∧
        shortcodeToUrl w' = <[code := id e]> (shortcodeToUrl w)
  end.
Proof.
  intros H validity' custom'. unfold createShortURL in H.
  fold validity' custom' in H.
  destruct (validateURL url); simpl in H; [|by injection H as <- <-].
  destruct (validity_rejected validity') eqn:Hv; [by injection H as <- <-|].
  unfold bind at 1 in H.
  destruct (truthy custom') eqn:Hc.
  - destruct (validateShortcode custom') eqn:Hvs; simpl in H;
      [|by injection H as <- <-].
    apply validateShortcode_string in Hvs as (code & Hcode & Hre).
    rewrite Hcode in H. unfold bind at 1, gets in H.
    case_bool_decide as Htaken; simpl in H; [by injection H as <- <-|].
    unfold bind, nanoid, modify, ret in H; simpl in H.
    injection H as <- <-. simpl.
    split_and!; [done..|]. exists code, (drawn w).
    split_and!; try done. by apply eq_None_not_Some.
  - destruct (generateShortcode w) as [[code|err] w1] eqn:Hg.
    + apply generateShortcode_loop_inv in Hg as (Hs & Hi & Hnone & Hpos).
      unfold bind, nanoid, modify, ret in H; simpl in H.
      injection H as <- <-. simpl.
      split_and!; [done..|]. exists code, (drawn w1).
      rewrite Hs, Hi. done.
    + apply generateShortcode_loop_inv in Hg as (Hs & Hi & _).
      by injection H as <- <-.
Qed.

(** A successful call stores one entry for the link it returns. *)
Lemma createShortURL_stores url validity custom now w r w' :
  createShortURL url validity custom now w = (Returned r, w') →
  ∃ e, created_by r w' e ∧
    shortcodeToUrl w !! shortcode e = None ∧
    originalURL e = url ∧
    createdAt e = now + add_amount (default_param validity (JNum 30)) * 60000 ∧
    expiryTime e = now + add_amount (default_param validity (JNum 30)) * 60000 ∧
    expiry r = expiryTime e ∧
    clicks e = [] ∧ totalClicks e = 0%nat.
Proof.
  intros H. apply createShortURL_inv in H as (_ & _ & code & pos & Hnone & _ & H).
  cbv zeta in H. destruct H as (-> & Hs & Hi).
  eexists (mkEntry _ _ _ _ _ _ _). unfold created_by. simpl.
  rewrite Hs, Hi. simpl. rewrite lookup_insert_eq, map_get_set_eq. done.
Qed.

Lemma created_by_functional r w e1 e2 :
  created_by r w e1 → created_by r w e2 → e1 = e2.
Proof.
  intros (Hl1 & Hi1 & Hs1) (Hl2 & Hi2 & Hs2).
  rewrite Hl1 in Hl2. simpl in Hl2.
  assert (shortcode e1 = shortcode e2) as Hc by (repeat injection Hl2 as Hl2; done).
  rewrite Hc in Hi1. congruence.
Qed.

(** ** recordClick *)

(** Whatever the body does, a handler that returns false lets no error
    through, and turns every error of the body into false. *)
Lemma try_catch_swallows (body : M bool) w :
  ∃ ok w', try_catch body (λ _, ret false) w = (Returned ok, w') ∧
    ∀ err w1, body w = (Thrown err, w1) → ok = false ∧ w' = w1.
Proof.
  unfold try_catch, ret. destruct (body w) as [[ok|err] w1].
  - exists ok, w1. by split.
  - exists false, w1. split; [done|]. by intros ? ? [= _ <-].
Qed.

Lemma recordClick_cases code referrer ip now stamp w :
  (getURLByShortcode code now w = None ∧
   recordClick code referrer ip now stamp w = (Returned false, w))
  ∨
  (∃ urlId e,
     shortcodeToUrl w !! code = Some urlId ∧
     map_get urlId (urlStore w) = Some e ∧
     getURLByShortcode code now w = Some e ∧
     recordClick code referrer ip now stamp w =
       (Returned true,
        set_urlStore urlId (push_click e (clickData_of referrer ip stamp)) w)).
Proof.
  unfold recordClick, getURLByShortcode, try_catch, bind, gets, ret, modify.
  simpl.
  destruct (shortcodeToUrl w !! code) as [urlId|]; [|by left].
  destruct (negb (negb (urlId =? "")%string)); [by left|].
  destruct (map_get urlId (urlStore w)) as [e|] eqn:Hget; [|by left].
  destruct (isAfter now (expiryTime e)); [by left|].
  right. by exists urlId, e.
Qed.

(** ** Invariants of the reachable states *)

Lemma index_resolves_insert w w' code e :
  index_resolves w →
  id e ≠ "" →
  urlStore w' = map_set (id e) e (urlStore w) →
  shortcodeToUrl w' = <[code := id e]> (shortcodeToUrl w) →
  index_resolves w'.
Proof.
  intros Hw Hid Hs Hi code0 urlId. rewrite Hs, Hi, lookup_insert.
  case_decide as Hc.
  - intros [= <-]. by rewrite map_get_set_eq.
  - intros H. apply Hw in H as [Hne Hsome]. split; [done|].
    rewrite map_get_set. by case_decide.
Qed.

Lemma index_resolves_update w urlId e e' :
  index_resolves w →
  map_get urlId (urlStore w) = Some e →
  index_resolves (set_urlStore urlId e' w).
Proof.
  intros Hw He code0 urlId0 H. simpl in H.
  apply Hw in H as [Hne Hsome]. split; [done|]. simpl.
  rewrite map_get_set. by case_decide.
Qed.

Lemma run_invariant w log :
  run w log →
  index_resolves w ∧
  ∀ e, e ∈ log → is_Some (shortcodeToUrl w !! shortcode e).
Proof.
  induction 1 as [|url validity custom now w log r w' e Hrun [IHi IHl] Hc Hby
                  |url validity custom now w log err w' Hrun [IHi IHl] Hc
                  |code referrer ip now stamp w log res w' Hrun [IHi IHl] Hc].
  - split; [|by intros e ?%elem_of_nil].
    intros code urlId. simpl. by rewrite lookup_empty.
  - pose proof Hc as Hinv.
    apply createShortURL_inv in Hinv as (_ & _ & code & pos & Hnone & _ & Hinv).
    cbv zeta in Hinv. destruct Hinv as (_ & Hs & Hi).
    split.
    + eapply index_resolves_insert; [done| |done..]. done.
    + intros e0 [->|Hin]%elem_of_cons.
      * destruct Hby as (_ & Hidx & _). by rewrite Hidx.
      * rewrite Hi, lookup_insert. case_decide; [done|]. by apply IHl.
  - apply createShortURL_inv in Hc as [Hs Hi].
    split.
    + intros code urlId. rewrite Hs, Hi. apply IHi.
    + intros e0 Hin. rewrite Hi. by apply IHl.
  - destruct (recordClick_cases code referrer ip now stamp w)
      as [[_ Hr]|(urlId & e & Hidx & Hget & _ & Hr)];
      rewrite Hr in Hc; injection Hc as <- <-; [done|].
    split; [by eapply index_resolves_update|done].
Qed.

Lemma run_store_codes w log : run w log → store_codes_distinct w.
Proof.
  induction 1 as [|url validity custom now w log r w' e Hrun [IHi IHd] Hc Hby
                  |url validity custom now w log err w' Hrun [IHi IHd] Hc
                  |code referrer ip now stamp w log res w' Hrun [IHi IHd] Hc].
  - split; [intros ? ? [=]|intros ? ? ? ? _ [=]].
  - apply createShortURL_inv in Hc as (_ & _ & code & pos & Hnone & _ & Hinv).
    cbv zeta in Hinv. destruct Hinv as (_ & Hs & Hi).
    cbn [id] in Hs, Hi. set (fresh := nanoid_from 21 pos) in *.
    assert (∀ k e0, k ≠ fresh → map_get k (urlStore w') = Some e0 →
              map_get k (urlStore w) = Some e0 ∧ shortcode e0 ≠ code) as Hold.
    { intros k e0 Hk Hg. rewrite Hs, map_get_set_ne in Hg by done.
      split; [done|]. intros <-. apply IHi in Hg. rewrite Hnone in Hg.
      by destruct Hg. }
    assert (∀ e0, map_get fresh (urlStore w') = Some e0 → shortcode e0 = code)
      as Hnew.
    { intros e0. rewrite Hs, map_get_set_eq. by intros [= <-]. }
    split.
    + intros k e0 Hg. rewrite Hi, lookup_insert.
      destruct (decide (k = fresh)) as [->|Hk].
      * apply Hnew in Hg as ->. by rewrite decide_True.
      * apply Hold in Hg as [Hg _]; [|done]. case_decide; [done|by eapply IHi].
    + intros id1 id2 e1 e2 Hne H1 H2.
      destruct (decide (id1 = fresh)) as [->|Hk1];
        destruct (decide (id2 = fresh)) as [->|Hk2]; [done| | |].
      * apply Hnew in H1 as ->. apply Hold in H2 as [_ H2]; done.
      * apply Hnew in H2 as ->. apply Hold in H1 as [_ H1]; done.
      * apply Hold in H1 as [H1 _]; [|done]. apply Hold in H2 as [H2 _]; [|done].
        exact (IHd _ _ _ _ Hne H1 H2).
  - apply createShortURL_inv in Hc as [Hs Hi].
    split.
    + intros k e0. rewrite Hs, Hi. apply IHi.
    + intros id1 id2 e1 e2. rewrite Hs. apply IHd.
  - destruct (recordClick_cases code referrer ip now stamp w)
      as [[_ Hr]|(urlId & e & Hidx & Hget & _ & Hr)];
      rewrite Hr in Hc; injection Hc as <- <-; [done|].
    assert (∀ k e0,
              map_get k (map_set urlId
                 (push_click e (clickData_of referrer ip stamp)) (urlStore w))
                = Some e0 →
              ∃ e1, map_get k (urlStore w) = Some e1 ∧ shortcode e1 = shortcode e0)
      as Hold.
    { intros k e0. rewrite map_get_set. case_decide as Hk.
      - subst k. intros [= <-]. by exists e.
      - intros Hg. by exists e0. }
    split; simpl.
    + intros k e0 (e1 & Hg & <-)%Hold. by eapply IHi.
    + intros id1 id2 e1 e2 Hne (e1' & H1 & <-)%Hold (e2' & H2 & <-)%Hold.
      exact (IHd _ _ _ _ Hne H1 H2).
Qed.

(** No key of the index of a reachable state is the empty string: a custom
    shortcode has three characters at least, a generated one has eight. *)
Lemma run_index_keys w log code :
  run w log → is_Some (shortcodeToUrl w !! code) → code ≠ "".
Proof.
  induction 1 as [|url validity custom now w log r w' e Hrun IH Hc Hby
                  |url validity custom now w log err w' Hrun IH Hc
                  |code0 referrer ip now stamp w log res w' Hrun IH Hc].
  - simpl. rewrite lookup_empty. by intros [? ?].
  - apply createShortURL_inv in Hc as (_ & _ & code1 & pos & _ & Hshape & Hinv).
    cbv zeta in Hinv. destruct Hinv as (_ & _ & ->).
    rewrite lookup_insert. case_decide as Heq; [|done]. subst code1. intros _.
    destruct (truthy (default_param custom JNull)).
    + destruct Hshape as [_ Hre]. intros ->. done.
    + destruct Hshape as [p ->]. done.
  - apply createShortURL_inv in Hc as [_ ->]. done.
  - destruct (recordClick_cases code0 referrer ip now stamp w)
      as [[_ Hr]|(urlId & e & _ & _ & _ & Hr)];
      rewrite Hr in Hc; by injection Hc as <- <-.
Qed.

(** Every success extends the history: no reachable state is left out of
    [run]. *)
Lemma run_created_total url validity custom now w log r w' :
  run w log →
  createShortURL url validity custom now w = (Returned r, w') →
  ∃ e, run w' (e :: log).
Proof.
  intros Hrun Hc.
  destruct (createShortURL_stores _ _ _ _ _ _ _ Hc) as (e & Hby & _).
  exists e. by eapply run_created.
Qed.

(** ** The validity guard *)

Lemma validity_rejected_iff v :
  validity_rejected v = true ↔
  truthy v = true ∧ (∀ n, v = JNum n → n ≤ 0).
Proof.
  unfold validity_rejected. destruct v as [| |[]|n|s]; simpl; split;
    try (intros [? ?]; done); try done.
  - intros [Hn Hle]%andb_true_iff. split; [done|]. intros ? [= <-]. lia.
  - intros [Hn Hle]. rewrite Hn. simpl. specialize (Hle n eq_refl). lia.
  - intros H. rewrite andb_true_r in H. done.
  - intros [-> _]. done.
Qed.

Lemma add_amount_nonneg v : validity_rejected v = false → 0 ≤ add_amount v.
Proof.
  unfold validity_rejected. destruct v as [| |[]|n|s]; simpl; try done.
  destruct (n =? 0) eqn:E; simpl; lia.
Qed.

(** A value that is provided, truthy and not a positive number is refused. *)
Lemma createShortURL_refuses_validity url validity custom now w :
  validateURL url = true →
  truthy validity = true →
  (∀ n, validity = JNum n → n ≤ 0) →
  createShortURL url validity custom now w = (Thrown InvalidValidity, w).
Proof.
  intros Hu Ht Hn. unfold createShortURL. rewrite Hu. simpl.
  assert (default_param validity (JNum 30) = validity) as -> by by destruct validity.
  assert (validity_rejected validity = true) as -> by by apply validity_rejected_iff.
  done.
Qed.

(** An absent validity is 30. *)
Lemma createShortURL_default_validity url custom now w :
  createShortURL url JUndefined custom now w =
  createShortURL url (JNum 30) custom now w.
Proof. reflexivity. Qed.

(** ** Properties of the store *)

(** C1 (the code departs from the claim).  For every entry a successful
    [createShortURL] stores, the stored [createdAt] and the stored
    [expiryTime] are the same instant, the clock of the call plus the
    validity: [createdAt.add] moved the one moment object that both names
    denote before either was printed.  [expiryTime] is therefore not
    [createdAt] plus the validity, and not strictly after [createdAt]. *)
Theorem createShortURL_createdAt_is_expiryTime url validity custom now w r w' :
  createShortURL url validity custom now w = (Returned r, w') →
  ∃ e, created_by r w' e ∧
    createdAt e = expiryTime e ∧
    expiryTime e = now + add_amount (default_param validity (JNum 30)) * 60000.
Proof.
  intros H. apply createShortURL_stores in H as (e & Hby & _ & _ & Hc & He & _).
  exists e. split_and!; [done| |done]. by rewrite Hc, He.
Qed.

(** C2 (as amended).  The shortcodes of the entries created along a run
    are pairwise different, and so are the shortcodes of the entries that
    [urlStore] holds under different identifiers.  In a reachable state a
    call of [createShortURL] whose custom shortcode is a key of the
    shortcode index throws and leaves the state as it was; its error is the
    one of the first check that fails, in the order URL, validity, pattern
    of the custom shortcode, and the collision one when these three pass. *)
Theorem created_shortcodes_unique w log :
  run w log →
  NoDup (shortcode <$> log) ∧
  (∀ id1 id2 e1 e2,
     id1 ≠ id2 →
     map_get id1 (urlStore w) = Some e1 →
     map_get id2 (urlStore w) = Some e2 →
     shortcode e1 ≠ shortcode e2) ∧
  (∀ url validity custom now,
     is_Some (shortcodeToUrl w !! custom) →
     createShortURL url validity (JStr custom) now w =
       (Thrown
          (if negb (validateURL url) then InvalidURL
           else if validity_rejected (default_param validity (JNum 30))
                then InvalidValidity
           else if negb (shortcodeRegex custom) then InvalidShortcode
           else ShortcodeCollision),
        w)) ∧
  (∀ url validity custom now,
     validateURL url = true →
     validity_rejected (default_param validity (JNum 30)) = false →
     validateShortcode (JStr custom) = true →
     is_Some (shortcodeToUrl w !! custom) →
     createShortURL url validity (JStr custom) now w = (Thrown ShortcodeCollision, w)).
Proof.
  intros Hrun. split_and!.
  - induction Hrun as [|url validity custom now w log r w' e Hrun IH Hc Hby| |];
      [constructor| |done..].
    csimpl. constructor; [|done].
    destruct (createShortURL_stores _ _ _ _ _ _ _ Hc) as (e' & Hby' & Hnone & _).
    rewrite (created_by_functional _ _ _ _ Hby Hby').
    intros (e0 & Heq & Hin)%list_elem_of_fmap.
    apply run_invariant in Hrun as [_ Hlog].
    apply Hlog in Hin. rewrite <- Heq, Hnone in Hin. by destruct Hin.
  - by apply run_store_codes in Hrun as [_ Hd].
  - intros url validity custom now Hsome.
    pose proof (run_index_keys _ _ _ Hrun Hsome) as Hne.
    unfold createShortURL. simpl default_param.
    destruct (validateURL url); simpl; [|done].
    destruct (validity_rejected _); [done|].
    unfold bind at 1. simpl truthy.
    assert ((custom =? "")%string = false) as -> by by apply String.eqb_neq.
    simpl. destruct (shortcodeRegex custom); simpl; [|done].
    unfold bind, gets. by rewrite bool_decide_eq_true_2.
  - intros url validity custom now Hu Hv Hs Hsome.
    destruct (validateShortcode_string _ Hs) as (s0 & [= <-] & Hre).
    assert ((custom =? "")%string = false) as Hne.
    { simpl in Hs. by destruct (custom =? "")%string. }
    unfold createShortURL. simpl default_param. rewrite Hu, Hv. simpl.
    unfold bind at 1. rewrite Hne. simpl. rewrite Hre. simpl.
    unfold bind, gets. by rewrite bool_decide_eq_true_2.
Qed.

(** C3.  In a reachable state, [getURLByShortcode] returns null exactly when
    the shortcode is not a key of the index or the clock is after the
    [expiryTime] of the entry the index leads to; otherwise it returns that
    stored entry.  [getURLStatistics] returns null in the same cases and the
    statistics of that entry otherwise. *)
Theorem lookup_visibility w log code now :
  run w log →
  (getURLByShortcode code now w = None ↔
     shortcodeToUrl w !! code = None ∨
     ∃ urlId e, shortcodeToUrl w !! code = Some urlId ∧
                map_get urlId (urlStore w) = Some e ∧
                expiryTime e < now) ∧
  (∀ urlId e, shortcodeToUrl w !! code = Some urlId →
              map_get urlId (urlStore w) = Some e →
              now ≤ expiryTime e →
              getURLByShortcode code now w = Some e) ∧
  (getURLStatistics code now w = None ↔ getURLByShortcode code now w = None) ∧
  (∀ e, getURLByShortcode code now w = Some e →
        getURLStatistics code now w = Some (statistics code e)).
Proof.
  intros [Hres _]%run_invariant.
  assert (∀ urlId e, shortcodeToUrl w !! code = Some urlId →
            map_get urlId (urlStore w) = Some e →
            getURLByShortcode code now w =
            if isAfter now (expiryTime e) then None else Some e) as Hstep.
  { intros urlId e Hi Hg. unfold getURLByShortcode. rewrite Hi.
    apply Hres in Hi as [Hne _]. simpl.
    apply String.eqb_neq in Hne. rewrite Hne. simpl. by rewrite Hg. }
  split_and!.
  - split.
    + destruct (shortcodeToUrl w !! code) as [urlId|] eqn:Hi; [|by left].
      destruct (Hres _ _ Hi) as [_ [e Hg]].
      rewrite (Hstep _ _ eq_refl Hg). unfold isAfter.
      destruct (expiryTime e <? now) eqn:Hlt; [|done].
      intros _. right. exists urlId, e. split_and!; [done..|lia].
    + intros [Hi|(urlId & e & Hi & Hg & Hlt)].
      * unfold getURLByShortcode. by rewrite Hi.
      * rewrite (Hstep _ _ Hi Hg). unfold isAfter.
        by apply Z.ltb_lt in Hlt as ->.
  - intros urlId e Hi Hg Hle. rewrite (Hstep _ _ Hi Hg). unfold isAfter.
    by apply Z.ltb_ge in Hle as ->.
  - unfold getURLStatistics. by destruct (getURLByShortcode code now w).
  - intros e He. unfold getURLStatistics. by rewrite He.
Qed.

(** C5 (as amended).  The shortcode stored by a successful
    [createShortURL] is the custom shortcode when one is given, and then it
    matches [^[a-zA-Z0-9]{3,20}$]; otherwise it is what [nanoid(8)]
    returned: eight characters of nanoid's alphabet, which has '_' and '-'
    besides the letters and the digits. *)
Theorem stored_shortcode_shape url validity custom now w r w' :
  createShortURL url validity custom now w = (Returned r, w') →
  ∃ e, created_by r w' e ∧
    if truthy (default_param custom JNull)
    then custom = JStr (shortcode e) ∧ shortcodeRegex (shortcode e) = true
    else String.length (shortcode e) = 8%nat ∧
         forallb url_safe (String.list_ascii_of_string (shortcode e)) = true.
Proof.
  intros H.
  destruct (createShortURL_stores _ _ _ _ _ _ _ H) as (e & Hby & _).
  exists e. split; [done|].
  apply createShortURL_inv in H as (_ & _ & code & pos & _ & Hshape & H).
  cbv zeta in H. destruct H as (Hr & Hs & Hi).
  assert (shortcode e = code) as ->.
  { destruct Hby as (Hl & _). rewrite Hr in Hl. simpl in Hl.
    repeat injection Hl as Hl. done. }
  destruct (truthy (default_param custom JNull)).
  - destruct Hshape as [Hc Hre]. split; [|done]. by destruct custom.
  - destruct Hshape as [p ->].
    by rewrite nanoid_from_length, nanoid_from_url_safe.
Qed.

(** C6.  [recordClick] always returns a boolean and never throws.  It
    returns false, changing nothing, when the shortcode is not a key of the
    index and when the clock is after the entry's [expiryTime]; it returns
    true exactly when [getURLByShortcode] would show the entry, and then
    the stored entry has one more click at the end of [clicks], with
    location "Unknown" and with referrer "direct" when none was given, and
    [totalClicks] one higher. *)
Theorem recordClick_best_effort code ref addr now stamp w :
  ∃ ok w',
    recordClick code ref addr now stamp w = (Returned ok, w') ∧
    (shortcodeToUrl w !! code = None → ok = false) ∧
    (∀ urlId e, shortcodeToUrl w !! code = Some urlId →
                map_get urlId (urlStore w) = Some e →
                expiryTime e < now → ok = false) ∧
    (ok = false → w' = w) ∧
    (ok = true ↔ is_Some (getURLByShortcode code now w)) ∧
    (ok = true →
     ∃ urlId e e' click,
       shortcodeToUrl w !! code = Some urlId ∧
       map_get urlId (urlStore w) = Some e ∧
       map_get urlId (urlStore w') = Some e' ∧
       clicks e' = clicks e ++ [click] ∧
       totalClicks e' = S (totalClicks e) ∧
       location click = "Unknown" ∧
       timestamp click = stamp ∧
       (truthy ref = false → referrer click = JStr "direct") ∧
       (truthy ref = true → referrer click = ref)).
Proof.
  destruct (recordClick_cases code ref addr now stamp w)
    as [[Hnone Hr]|(urlId & e & Hi & Hg & Hsome & Hr)].
  - exists false, w. rewrite Hnone. by split_and!.
  - exists true, (set_urlStore urlId (push_click e (clickData_of ref addr stamp)) w).
    rewrite Hsome. split_and!; try done.
    + by rewrite Hi.
    + intros urlId' e' Hi' Hg' Hlt. exfalso.
      rewrite Hi in Hi'. injection Hi' as <-. rewrite Hg in Hg'. injection Hg' as <-.
      unfold getURLByShortcode in Hsome. rewrite Hi, Hg in Hsome.
      destruct (negb _); [done|]. unfold isAfter in Hsome.
      apply Z.ltb_lt in Hlt. by rewrite Hlt in Hsome.
    + intros _. eexists urlId, e, _, _.
      split_and!; [done|done|apply map_get_set_eq|done..| |].
      * simpl. unfold js_or. destruct ref; simpl; try done; by intros ->.
      * simpl. unfold js_or. destruct ref; simpl; try done; by intros ->.
Qed.

(** C7.  When [createShortURL] throws, whatever the error, [urlStore] and
    [shortcodeToUrl] are what they were before the call. *)
Theorem createShortURL_failure_writes_nothing url validity custom now w err w' :
  createShortURL url validity custom now w = (Thrown err, w') →
  urlStore w' = urlStore w ∧ shortcodeToUrl w' = shortcodeToUrl w.
Proof. intros H. by apply createShortURL_inv in H. Qed.

(** C8.  After a successful [createShortURL] of [url], the URL passed
    [validateURL], and [getURLByShortcode] on the shortcode of the returned
    link, at the clock of the creation and at any clock up to the returned
    expiry, returns an entry whose [originalURL] is [url]. *)
Theorem create_then_lookup url validity custom now w r w' :
  createShortURL url validity custom now w = (Returned r, w') →
  validateURL url = true ∧
  now ≤ expiry r ∧
  ∃ code,
    shortLink r = "http://localhost:5000/" +:+ code ∧
    ∀ now', now' ≤ expiry r →
      ∃ e, getURLByShortcode code now' w' = Some e ∧ originalURL e = url.
Proof.
  intros H.
  destruct (createShortURL_stores _ _ _ _ _ _ _ H)
    as (e & (Hl & Hi & Hg) & _ & Hu & _ & He & Hr & _).
  apply createShortURL_inv in H as (Hvalid & Hv & code & pos & _ & _ & H).
  cbv zeta in H. destruct H as (Hret & Hs & Hidx).
  split; [done|]. split.
  { rewrite Hr, He. apply add_amount_nonneg in Hv. lia. }
  exists (shortcode e). split; [done|]. intros now' Hle.
  exists e. split; [|done].
  unfold getURLByShortcode. rewrite Hi.
  assert (id e ≠ "") as Hne.
  { rewrite Hs in Hg. rewrite Hidx in Hi.
    assert (shortcode e = code) as Hc.
    { rewrite Hret in Hl. simpl in Hl. repeat injection Hl as Hl. done. }
    rewrite Hc, lookup_insert_eq in Hi. by injection Hi as <-. }
  simpl. apply String.eqb_neq in Hne. rewrite Hne. simpl. rewrite Hg.
  unfold isAfter. rewrite <- Hr. by apply Z.ltb_ge in Hle as ->.
Qed.

(** C9.  [getAllURLs] returns one object for each entry [urlStore] holds,
    in the order of the store.  The object of an entry has the link made of
    the base address and the entry's shortcode, the entry's [originalURL],
    [createdAt], [expiryTime] and [totalClicks], and one row for each of its
    clicks, in order, with the click's timestamp, its referrer as source,
    and its location.  The clock plays no part: an entry that
    [getURLStatistics] hides as expired is listed all the same. *)
Theorem getAllURLs_unfiltered w :
  let listed (e : UrlEntry) : Stats.t :=
    {| Stats.shortLink := "http://localhost:5000/" +:+ shortcode e;
       Stats.originalURL := originalURL e;
       Stats.createdAt := createdAt e;
       Stats.expiryTime := expiryTime e;
       Stats.totalClicks := totalClicks e;
       Stats.clicks :=
         (λ click, {| Stats.timestamp := timestamp click;
                      Stats.source := referrer click;
                      Stats.location := location click |}) <$> clicks e |} in
  length (getAllURLs w) = length (urlStore w) ∧
  (∀ i urlId e, urlStore w !! i = Some (urlId, e) →
     getAllURLs w !! i = Some (listed e)) ∧
  (∀ i s, getAllURLs w !! i = Some s →
     ∃ urlId e, urlStore w !! i = Some (urlId, e) ∧ s = listed e) ∧
  (∀ code urlId e now,
     shortcodeToUrl w !! code = Some urlId →
     map_get urlId (urlStore w) = Some e →
     expiryTime e < now →
     getURLStatistics code now w = None ∧
     listed e ∈ getAllURLs w).
Proof.
  intros listed.
  assert (∀ i urlId e, urlStore w !! i = Some (urlId, e) →
            getAllURLs w !! i = Some (listed e)) as Hat.
  { intros i urlId e Hi. unfold getAllURLs, map_values.
    by rewrite !list_lookup_fmap, Hi. }
  split_and!; [|done| |].
  - unfold getAllURLs, map_values. by rewrite !length_fmap.
  - intros i s Hs.
    destruct (urlStore w !! i) as [[urlId e]|] eqn:Hi.
    + rewrite (Hat _ _ _ Hi) in Hs. injection Hs as <-. by exists urlId, e.
    + unfold getAllURLs, map_values in Hs.
      by rewrite !list_lookup_fmap, Hi in Hs.
  - intros code urlId e now Hi Hg Hlt. split.
    + unfold getURLStatistics, getURLByShortcode. rewrite Hi.
      destruct (negb _); [done|]. rewrite Hg. unfold isAfter.
      by apply Z.ltb_lt in Hlt as ->.
    + apply map_get_Some_elem, list_elem_of_lookup in Hg as [i Hat_i].
      apply list_elem_of_lookup. exists i. by apply (Hat _ urlId).
Qed.

(** C10.  A [recordClick] that returns true leaves the shortcode index and
    the keys of [urlStore] as they were, leaves every entry under another
    identifier untouched and in place, and changes the target entry only
    in [clicks], which gets one record at its end, and in [totalClicks],
    which goes up by one. *)
Theorem recordClick_frame code referrer ip now stamp w w' :
  recordClick code referrer ip now stamp w = (Returned true, w') →
  shortcodeToUrl w' = shortcodeToUrl w ∧
  (urlStore w').*1 = (urlStore w).*1 ∧
  ∃ urlId e e',
    shortcodeToUrl w !! code = Some urlId ∧
    map_get urlId (urlStore w) = Some e ∧
    map_get urlId (urlStore w') = Some e' ∧
    id e' = id e ∧ originalURL e' = originalURL e ∧
    shortcode e' = shortcode e ∧
    createdAt e' = createdAt e ∧ expiryTime e' = expiryTime e ∧
    (∃ click, clicks e' = clicks e ++ [click]) ∧
    totalClicks e' = S (totalClicks e) ∧
    (∀ other, other ≠ urlId →
       map_get other (urlStore w') = map_get other (urlStore w)) ∧
    (∀ i other entry, urlStore w !! i = Some (other, entry) → other ≠ urlId →
       urlStore w' !! i = Some (other, entry)).
Proof.
  intros H.
  destruct (recordClick_cases code referrer ip now stamp w)
    as [[_ Hr]|(urlId & e & Hi & Hg & _ & Hr)];
    rewrite Hr in H; [done|]. injection H as <-. simpl.
  split_and!; [done|by eapply map_set_keys_present|].
  eexists urlId, e, _. split_and!; [done|done|apply map_get_set_eq|..]; try done.
  - by eexists.
  - intros other Hne. by apply map_get_set_ne.
  - intros i other entry Hl Hne. by apply map_set_lookup_ne.
Qed.

(** ** Further properties of the service *)

Lemma map_set_Forall {V} (P : string * V → Prop) k v m :
  Forall P m → P (k, v) → Forall P (map_set k v m).
Proof.
  intros Hm Hv. induction Hm as [|[k' v'] m Hx Hm IH]; simpl.
  - by constructor.
  - destruct (String.eqb k k'); by constructor.
Qed.

Lemma map_set_fresh {V} k (v : V) m :
  map_get k m = None → map_set k v m = m ++ [(k, v)].
Proof.
  induction m as [|[k' v'] m IH]; simpl; [done|].
  destruct (String.eqb k k'); [done|]. intros H. by rewrite IH.
Qed.

Lemma getURLByShortcode_Some code now w e :
  getURLByShortcode code now w = Some e ↔
  ∃ urlId, shortcodeToUrl w !! code = Some urlId ∧ urlId ≠ "" ∧
           map_get urlId (urlStore w) = Some e ∧ now ≤ expiryTime e.
Proof.
  unfold getURLByShortcode, isAfter. split.
  - destruct (shortcodeToUrl w !! code) as [urlId|]; [|done]. simpl.
    destruct (urlId =? "")%string eqn:Hne; [done|]. simpl.
    destruct (map_get urlId (urlStore w)) as [e0|] eqn:Hg; [|done].
    destruct (expiryTime e0 <? now) eqn:Hlt; [done|].
    intros [= ->]. exists urlId. apply String.eqb_neq in Hne.
    apply Z.ltb_ge in Hlt. by split_and!.
  - intros (urlId & -> & Hne & -> & Hle). simpl.
    apply String.eqb_neq in Hne as ->. simpl.
    by apply Z.ltb_ge in Hle as ->.
Qed.

(** The entries of a reachable store sit under their own identifier and
    count their clicks. *)
Lemma run_entries w log :
  run w log →
  Forall (λ ke, id ke.2 = ke.1 ∧ totalClicks ke.2 = length (clicks ke.2))
    (urlStore w).
Proof.
  induction 1 as [|url validity custom now w log r w' e Hrun IH Hc Hby
                  |url validity custom now w log err w' Hrun IH Hc
                  |code referrer ip now stamp w log res w' Hrun IH Hc].
  - constructor.
  - apply createShortURL_inv in Hc as (_ & _ & code & pos & _ & _ & Hinv).
    cbv zeta in Hinv. destruct Hinv as (_ & -> & _).
    by apply map_set_Forall.
  - apply createShortURL_inv in Hc as [-> _]. done.
  - destruct (recordClick_cases code referrer ip now stamp w)
      as [[_ Hr]|(urlId & e & Hidx & Hget & _ & Hr)];
      rewrite Hr in Hc; injection Hc as <- <-; [done|].
    simpl. apply map_set_Forall; [done|].
    apply map_get_Some_elem in Hget.
    rewrite Forall_forall in IH. apply IH in Hget as [Hid Hn]. simpl in *.
    split; [done|]. rewrite length_app, Hn. simpl. lia.
Qed.

(** X1.  In a reachable state every stored entry has [totalClicks] equal to
    the number of its click records, and so has every statistics object the
    service returns, from [getURLStatistics] and in [getAllURLs]. *)
Theorem click_count_consistent w log :
  run w log →
  (∀ urlId e, map_get urlId (urlStore w) = Some e →
     totalClicks e = length (clicks e)) ∧
  (∀ code now s, getURLStatistics code now w = Some s →
     Stats.totalClicks s = length (Stats.clicks s)) ∧
  (∀ s, s ∈ getAllURLs w → Stats.totalClicks s = length (Stats.clicks s)).
Proof.
  intros Hrun. apply run_entries in Hrun. rewrite Forall_forall in Hrun.
  assert (∀ urlId e, map_get urlId (urlStore w) = Some e →
            totalClicks e = length (clicks e)) as Hstored.
  { intros urlId e Hg. apply map_get_Some_elem in Hg. by apply Hrun in Hg as [_ ?]. }
  split_and!; [done| |].
  - intros code now s. unfold getURLStatistics.
    destruct (getURLByShortcode code now w) as [e|] eqn:He; [|done].
    intros [= <-]. simpl. rewrite length_fmap.
    apply getURLByShortcode_Some in He as (urlId & _ & _ & Hg & _). eauto.
  - intros s. unfold getAllURLs, map_values.
    intros (e & -> & ([k e'] & -> & Hin)%list_elem_of_fmap)%list_elem_of_fmap.
    simpl. rewrite length_fmap. by apply Hrun in Hin as [_ ?].
Qed.

(** X2.  No call takes anything away: along any sequence of calls of
    [createShortURL] and [recordClick], a shortcode that is in the index
    stays there with the identifier it has, and an identifier that is a key
    of [urlStore] stays one.  A shortcode is so never free again, not even
    after its entry has expired. *)
Theorem bindings_persist w w' :
  steps w w' →
  (∀ code urlId, shortcodeToUrl w !! code = Some urlId →
     shortcodeToUrl w' !! code = Some urlId) ∧
  (∀ urlId, is_Some (map_get urlId (urlStore w)) →
     is_Some (map_get urlId (urlStore w'))).
Proof.
  induction 1 as [w
                 |url validity custom now w w1 res w2 Hsteps [IHi IHs] Hc
                 |code referrer ip now stamp w w1 res w2 Hsteps [IHi IHs] Hc];
    [done| |].
  - apply createShortURL_inv in Hc. destruct res as [r|err].
    + destruct Hc as (_ & _ & code & pos & Hnone & _ & Hinv).
      cbv zeta in Hinv. destruct Hinv as (_ & Hs & Hi). split.
      * intros code0 urlId H0. apply IHi in H0. rewrite Hi, lookup_insert.
        case_decide; [congruence|done].
      * intros urlId H0. apply IHs in H0. rewrite Hs, map_get_set.
        by case_decide.
    + destruct Hc as [Hs Hi]. rewrite Hs, Hi. done.
  - destruct (recordClick_cases code referrer ip now stamp w1)
      as [[_ Hr]|(urlId & e & Hidx & Hget & _ & Hr)];
      rewrite Hr in Hc; injection Hc as <- <-; [done|].
    split; [done|]. intros k H0. apply IHs in H0. simpl.
    rewrite map_get_set. by case_decide.
Qed.

(** The entry a successful call stores, in full. *)
Lemma createShortURL_created url validity custom now w r w' e :
  createShortURL url validity custom now w = (Returned r, w') →
  created_by r w' e →
  (∃ pos, id e = nanoid_from 21 pos) ∧
  shortcodeToUrl w !! shortcode e = None ∧
  urlStore w' = map_set (id e) e (urlStore w) ∧
  shortcodeToUrl w' = <[shortcode e := id e]> (shortcodeToUrl w) ∧
  originalURL e = url ∧
  expiryTime e = now + add_amount (default_param validity (JNum 30)) * 60000 ∧
  clicks e = [] ∧ totalClicks e = 0%nat ∧
  r = mkCreated ("http://localhost:5000/" +:+ shortcode e) (expiryTime e).
Proof.
  intros Hc Hby.
  apply createShortURL_inv in Hc as (_ & _ & code & pos & Hnone & _ & Hinv).
  cbv zeta in Hinv. destruct Hinv as (Hr & Hs & Hi).
  set (t := now + add_amount (default_param validity (JNum 30)) * 60000) in *.
  set (e0 := mkEntry (nanoid_from 21 pos) url code t t [] 0) in *.
  assert (created_by r w' e0) as Hby0.
  { unfold created_by. rewrite Hr, Hs, Hi. simpl.
    by rewrite lookup_insert_eq, map_get_set_eq. }
  rewrite (created_by_functional _ _ _ _ Hby Hby0).
  split_and!; try done. by exists pos.
Qed.

(** X3.  A successful [createShortURL] touches one key of each map: every
    other shortcode has in the index what it had, and every other identifier
    has in [urlStore] the entry it had. *)
Theorem createShortURL_frame url validity custom now w r w' e :
  createShortURL url validity custom now w = (Returned r, w') →
  created_by r w' e →
  (∀ code, code ≠ shortcode e →
     shortcodeToUrl w' !! code = shortcodeToUrl w !! code) ∧
  (∀ urlId, urlId ≠ id e →
     map_get urlId (urlStore w') = map_get urlId (urlStore w)).
Proof.
  intros Hc Hby.
  destruct (createShortURL_created _ _ _ _ _ _ _ _ Hc Hby)
    as (_ & _ & Hs & Hi & _).
  split.
  - intros code Hne. by rewrite Hi, lookup_insert_ne.
  - intros urlId Hne. by rewrite Hs, map_get_set_ne.
Qed.

(** X4.  When the identifier drawn for the new entry is not yet a key of
    [urlStore], a successful [createShortURL] puts the entry at the end of
    the store, and [getAllURLs] afterwards is the list of before followed by
    the statistics of the new entry, which has no click. *)
Theorem createShortURL_appends url validity custom now w r w' e :
  createShortURL url validity custom now w = (Returned r, w') →
  created_by r w' e →
  map_get (id e) (urlStore w) = None →
  urlStore w' = urlStore w ++ [(id e, e)] ∧
  getAllURLs w' = getAllURLs w ++ [statistics (shortcode e) e] ∧
  Stats.totalClicks (statistics (shortcode e) e) = 0%nat ∧
  Stats.clicks (statistics (shortcode e) e) = [].
Proof.
  intros Hc Hby Hfresh.
  destruct (createShortURL_created _ _ _ _ _ _ _ _ Hc Hby)
    as (_ & _ & Hs & _ & _ & _ & Hcl & Ht & _).
  rewrite (map_set_fresh _ _ _ Hfresh) in Hs.
  split_and!; [done| | |].
  - unfold getAllURLs, map_values. rewrite Hs, !fmap_app. done.
  - done.
  - simpl. by rewrite Hcl.
Qed.


(** X6.  In a fixed state, visibility is a threshold on the clock: what
    [getURLByShortcode] shows at a clock it shows at every earlier clock,
    and what it hides for expiry at a clock it hides at every later one. *)
Theorem visibility_threshold code now now' w e :
  getURLByShortcode code now w = Some e →
  (now' ≤ now → getURLByShortcode code now' w = Some e) ∧
  (expiryTime e < now' → getURLByShortcode code now' w = None).
Proof.
  intros (urlId & Hi & Hne & Hg & Hle)%getURLByShortcode_Some. split.
  - intros Hle'. apply getURLByShortcode_Some. exists urlId.
    split_and!; [done..|lia].
  - intros Hlt. unfold getURLByShortcode. rewrite Hi. simpl.
    apply String.eqb_neq in Hne as ->. simpl. rewrite Hg. unfold isAfter.
    by apply Z.ltb_lt in Hlt as ->.
Qed.

Local Arguments nanoid_from : simpl never.

(** One turn of the loop below the bound of the counter. *)
Lemma generateShortcode_loop_turn fuel attempts w :
  (S attempts ≤ maxAttempts)%nat →
  generateShortcode_loop (S fuel) attempts w =
  if bool_decide (is_Some (shortcodeToUrl w !! candidate w 0))
  then generateShortcode_loop fuel (S attempts) (advance 8 w)
  else (Returned (candidate w 0), advance 8 w).
Proof.
  intros Hle. cbn [generateShortcode_loop]. unfold bind, nanoid, gets, ret.
  assert ((maxAttempts <? S attempts)%nat = false) as -> by (apply Nat.ltb_ge; lia).
  unfold candidate, advance. rewrite Nat.mul_0_r, Nat.add_0_r.
  cbn [shortcodeToUrl drawn urlStore]. by case_bool_decide.
Qed.

Lemma candidate_advance w i : candidate (advance 8 w) i = candidate w (S i).
Proof. unfold candidate, advance. cbn [drawn]. f_equal. lia. Qed.

Lemma advance_advance n m w : advance n (advance m w) = advance (m + n) w.
Proof. unfold advance. cbn [drawn urlStore shortcodeToUrl]. f_equal. lia. Qed.

(** The loop, entered with [attempts] on the counter, when the candidate
    number [k] is the first free one and the counter allows it. *)
Lemma generateShortcode_loop_returns k : ∀ attempts w,
  (attempts + k < maxAttempts)%nat →
  (∀ i, (i < k)%nat → is_Some (shortcodeToUrl w !! candidate w i)) →
  shortcodeToUrl w !! candidate w k = None →
  generateShortcode_loop (S maxAttempts - attempts) attempts w =
  (Returned (candidate w k), advance (8 * S k) w).
Proof.
  induction k as [|k IH]; intros attempts w Hlt Htaken Hfree;
    replace (S maxAttempts - attempts)%nat
      with (S (S maxAttempts - S attempts))%nat by lia;
    rewrite generateShortcode_loop_turn by lia.
  - rewrite bool_decide_eq_false_2 by (rewrite Hfree; by intros [? ?]). done.
  - rewrite bool_decide_eq_true_2 by (apply Htaken; lia).
    rewrite (IH (S attempts) (advance 8 w)).
    + rewrite candidate_advance, advance_advance. do 2 f_equal. lia.
    + lia.
    + intros i Hi. rewrite candidate_advance. apply Htaken. lia.
    + by rewrite candidate_advance.
Qed.

Lemma generateShortcode_loop_exhausts k : ∀ attempts w,
  (attempts + k = maxAttempts)%nat →
  (∀ i, (i < k)%nat → is_Some (shortcodeToUrl w !! candidate w i)) →
  generateShortcode_loop (S maxAttempts - attempts) attempts w =
  (Thrown GenerationExhausted, advance (8 * S k) w).
Proof.
  induction k as [|k IH]; intros attempts w Heq Htaken.
  - replace (S maxAttempts - attempts)%nat with 1%nat by lia.
    cbn [generateShortcode_loop]. unfold bind, nanoid, throw.
    by assert ((maxAttempts <? S attempts)%nat = true) as -> by (apply Nat.ltb_lt; lia).
  - replace (S maxAttempts - attempts)%nat
      with (S (S maxAttempts - S attempts))%nat by lia.
    rewrite generateShortcode_loop_turn by lia.
    rewrite bool_decide_eq_true_2 by (apply Htaken; lia).
    rewrite (IH (S attempts) (advance 8 w)).
    + rewrite advance_advance. do 2 f_equal. lia.
    + lia.
    + intros i Hi. rewrite candidate_advance. apply Htaken. lia.
Qed.

(** When the loop throws, every candidate the counter let it test was
    taken. *)
Lemma generateShortcode_loop_thrown fuel : ∀ attempts w err w1,
  generateShortcode_loop fuel attempts w = (Thrown err, w1) →
  (attempts + fuel = S maxAttempts)%nat →
  ∀ i, (attempts + i < maxAttempts)%nat →
    is_Some (shortcodeToUrl w !! candidate w i).
Proof.
  induction fuel as [|fuel IH]; intros attempts w err w1 H Hsum i Hi; [lia|].
  rewrite generateShortcode_loop_turn in H by lia.
  case_bool_decide as Htaken; [|done].
  destruct i as [|i]; [done|].
  rewrite <- candidate_advance.
  apply (IH _ _ _ _ H); lia.
Qed.

(** X7.  [generateShortcode] returns the first of the codes it draws that is
    not a key of the index, provided that is one of the first [maxAttempts]
    (ten): it has then drawn that many codes and no more, and written
    nothing. *)
Theorem generateShortcode_first_free k w :
  (k < maxAttempts)%nat →
  (∀ i, (i < k)%nat → is_Some (shortcodeToUrl w !! candidate w i)) →
  shortcodeToUrl w !! candidate w k = None →
  generateShortcode w = (Returned (candidate w k), advance (8 * S k) w).
Proof.
  intros Hk Htaken Hfree. unfold generateShortcode.
  by apply (generateShortcode_loop_returns k 0 w).
Qed.

(** X8.  [generateShortcode] throws exactly when the first [maxAttempts]
    (ten) codes it draws are all keys of the index; it has then drawn eleven
    codes, the last of which it never tested, and written nothing. *)
Theorem generateShortcode_exhausted w :
  (∀ i, (i < maxAttempts)%nat → is_Some (shortcodeToUrl w !! candidate w i)) ↔
  generateShortcode w = (Thrown GenerationExhausted, advance (8 * S maxAttempts) w).
Proof.
  unfold generateShortcode. split.
  - intros Htaken. by apply (generateShortcode_loop_exhausts maxAttempts 0 w).
  - intros H i Hi.
    by apply (generateShortcode_loop_thrown _ _ _ _ _ H eq_refl i).
Qed.

(** X9.  A custom shortcode that is absent or falsy (undefined, null, the
    empty string, 0, false) is no custom shortcode: with a URL that
    validates and a validity the guard lets through, the call succeeds
    with the first free code among the ten first that [nanoid(8)] gives,
    whatever is in the store. *)
Theorem createShortURL_generates url validity custom now k w :
  validateURL url = true →
  validity_rejected (default_param validity (JNum 30)) = false →
  truthy custom = false →
  (k < maxAttempts)%nat →
  (∀ i, (i < k)%nat → is_Some (shortcodeToUrl w !! candidate w i)) →
  shortcodeToUrl w !! candidate w k = None →
  ∃ w',
    createShortURL url validity custom now w =
      (Returned
         {| shortLink := "http://localhost:5000/" +:+ candidate w k;
            expiry := now + add_amount (default_param validity (JNum 30)) * 60000 |},
       w') ∧
    drawn w' = (drawn w + 8 * S k + 21)%nat.
Proof.
  intros Hu Hv Hc Hk Htaken Hfree.
  assert (truthy (default_param custom JNull) = false) as Hc'
    by by destruct custom.
  eexists. split.
  - unfold createShortURL. rewrite Hu, Hv, Hc'. cbn [negb].
    unfold bind at 1.
    pose proof (generateShortcode_loop_returns k 0 w Hk Htaken Hfree) as Hgen.
    change (S maxAttempts - 0)%nat with (S maxAttempts) in Hgen.
    unfold generateShortcode. rewrite Hgen.
    unfold bind, nanoid, modify, ret. cbn [moment moment_add]. reflexivity.
  - simpl. lia.
Qed.

(** X10.  The error of a failed [createShortURL] is the one of the first
    check that fails, in the order URL, validity, shape of the custom
    shortcode, collision of the custom shortcode, and, without a custom
    shortcode, exhaustion of the generator. *)
Theorem createShortURL_error_order url validity custom now w res w' :
  createShortURL url validity custom now w = (res, w') →
  let validity' := default_param validity (JNum 30) in
  let custom' := default_param custom JNull in
  (res = Thrown InvalidURL ↔ validateURL url = false) ∧
  (res = Thrown InvalidValidity ↔
     validateURL url = true ∧ validity_rejected validity' = true) ∧
  (res = Thrown InvalidShortcode ↔
     validateURL url = true ∧ validity_rejected validity' = false ∧
     truthy custom' = true ∧ validateShortcode custom' = false) ∧
  (res = Thrown ShortcodeCollision ↔
     validateURL url = true ∧ validity_rejected validity' = false ∧
     validateShortcode custom' = true ∧
     ∃ s, custom' = JStr s ∧ is_Some (shortcodeToUrl w !! s)) ∧
  (res = Thrown GenerationExhausted ↔
     validateURL url = true ∧ validity_rejected validity' = false ∧
     truthy custom' = false ∧
     ∀ i, (i < maxAttempts)%nat → is_Some (shortcodeToUrl w !! candidate w i)).
Proof.
  intros H validity' custom'. unfold createShortURL in H.
  fold validity' custom' in H. clearbody validity' custom'.
  assert (validateShortcode custom' = true → truthy custom' = true) as Hvt.
  { destruct custom' as [| |b|n|s]; simpl; try done.
    by destruct (s =? "")%string. }
  destruct (validateURL url); simpl in H;
    [|injection H as <- <-; split_and!; split; try done; intuition congruence].
  destruct (validity_rejected validity') eqn:Hv;
    [injection H as <- <-; split_and!; split; try done; intuition congruence|].
  unfold bind at 1 in H.
  destruct (truthy custom') eqn:Hc.
  - destruct (validateShortcode custom') eqn:Hvs; simpl in H;
      [|injection H as <- <-; split_and!; split; try done; intuition congruence].
    destruct (validateShortcode_string _ Hvs) as (code & Hcode & Hre).
    rewrite Hcode in H. unfold bind at 1, gets in H.
    case_bool_decide as Htaken; simpl in H.
    + injection H as <- <-.
      split_and!; split; try done; try (intuition congruence).
      intros _. split_and!; try done. by exists code.
    + unfold bind, nanoid, modify, ret in H; simpl in H.
      injection H as <- <-.
      split_and!; split; try done; try (intuition congruence).
      intros (_ & _ & _ & s & Hs & Hsome). rewrite Hcode in Hs.
      injection Hs as <-. done.
  - destruct (generateShortcode w) as [[code|err] w1] eqn:Hg.
    + unfold bind, nanoid, modify, ret in H; simpl in H.
      injection H as <- <-.
      split_and!; split; try done; try (intuition congruence).
      intros (_ & _ & _ & Hall).
      apply (generateShortcode_loop_exhausts maxAttempts 0 w eq_refl) in Hall.
      change (S maxAttempts - 0)%nat with (S maxAttempts) in Hall.
      unfold generateShortcode in Hg. rewrite Hall in Hg. done.
    + injection H as <- <-.
      pose proof (generateShortcode_loop_inv _ _ _ _ _ Hg) as (_ & _ & ->).
      split_and!; split; try done; try (intuition congruence).
      intros _. split_and!; try done.
      intros i Hi.
      by apply (generateShortcode_loop_thrown _ _ _ _ _ Hg eq_refl i).
Qed.

(** ** Clicks *)

Lemma recordClick_succeeds code referrer ip now stamp w urlId e :
  shortcodeToUrl w !! code = Some urlId →
  urlId ≠ "" →
  map_get urlId (urlStore w) = Some e →
  now ≤ expiryTime e →
  recordClick code referrer ip now stamp w =
  (Returned true,
   set_urlStore urlId (push_click e (clickData_of referrer ip stamp)) w).
Proof.
  intros Hi Hne Hg Hle.
  assert (getURLByShortcode code now w = Some e) as Hvis.
  { apply getURLByShortcode_Some. by exists urlId. }
  destruct (recordClick_cases code referrer ip now stamp w)
    as [[Hnone _]|(urlId' & e' & Hi' & Hg' & _ & Hr)]; [congruence|].
  rewrite Hi in Hi'. injection Hi' as <-. rewrite Hg in Hg'. by injection Hg' as <-.
Qed.

(** X11.  Clicks accumulate: calls of [recordClick] on one shortcode, each
    at a clock not after the expiry of its entry, all return true, and they
    leave the entry with the clicks it had followed by one record per call,
    in the order of the calls, and with [totalClicks] raised by their
    number; nothing else of the entry and no binding of the index
    changes. *)
Theorem recordClicks_accumulate code hits : ∀ w urlId e,
  shortcodeToUrl w !! code = Some urlId →
  urlId ≠ "" →
  map_get urlId (urlStore w) = Some e →
  Forall (λ hit, hit.1.2 ≤ expiryTime e) hits →
  ∃ w' e',
    recordClicks code hits w = (Returned (replicate (length hits) true), w') ∧
    shortcodeToUrl w' = shortcodeToUrl w ∧
    map_get urlId (urlStore w') = Some e' ∧
    clicks e' =
      clicks e ++ ((λ hit, clickData_of hit.1.1.1 hit.1.1.2 hit.2) <$> hits) ∧
    totalClicks e' = (totalClicks e + length hits)%nat ∧
    originalURL e' = originalURL e ∧ shortcode e' = shortcode e ∧
    expiryTime e' = expiryTime e.
Proof.
  induction hits as [|[[[referrer ip] now] stamp] hits IH]; intros w urlId e Hi Hne Hg Hall.
  - exists w, e. simpl. rewrite app_nil_r, Nat.add_0_r. by split_and!.
  - apply Forall_cons in Hall as [Hle Hall]. simpl in Hle.
    pose proof (recordClick_succeeds code referrer ip now stamp w urlId e Hi Hne Hg Hle)
      as Hr.
    set (e1 := push_click e (clickData_of referrer ip stamp)) in *.
    set (w1 := set_urlStore urlId e1 w) in *.
    destruct (IH w1 urlId e1) as (w' & e' & Hrs & Hi' & Hg' & Hcl & Ht & Ho & Hs & He);
      [done|done|apply map_get_set_eq|done|].
    exists w', e'. cbn [recordClicks]. unfold bind at 1. rewrite Hr.
    unfold bind at 1. rewrite Hrs. unfold ret.
    split_and!; [done|done|done| | |done..].
    + rewrite Hcl. subst e1. simpl. by rewrite <- app_assoc.
    + rewrite Ht. subst e1. simpl. lia.
Qed.

(** X12.  After a [recordClick] that returns true, [getURLStatistics] on the
    shortcode at the same clock is what it was before with [totalClicks]
    one higher and one more row at the end of [clicks]: the clock of the
    click, the referrer given or "direct", and the location "Unknown". *)
Theorem recordClick_then_statistics code ref addr now stamp w w' :
  recordClick code ref addr now stamp w = (Returned true, w') →
  ∃ before,
    getURLStatistics code now w = Some before ∧
    getURLStatistics code now w' =
      Some {| Stats.shortLink := Stats.shortLink before;
              Stats.originalURL := Stats.originalURL before;
              Stats.createdAt := Stats.createdAt before;
              Stats.expiryTime := Stats.expiryTime before;
              Stats.totalClicks := S (Stats.totalClicks before);
              Stats.clicks :=
                Stats.clicks before ++
                [{| Stats.timestamp := stamp;
                    Stats.source := js_or (default_param ref JNull) (JStr "direct");
                    Stats.location := "Unknown" |}] |}.
Proof.
  intros H.
  destruct (recordClick_cases code ref addr now stamp w)
    as [[_ Hr]|(urlId & e & Hi & Hg & Hvis & Hr)];
    rewrite Hr in H; [done|]. injection H as <-.
  exists (statistics code e). unfold getURLStatistics. rewrite Hvis.
  split; [done|].
  apply getURLByShortcode_Some in Hvis as (urlId' & Hi' & Hne & Hg' & Hle).
  rewrite Hi in Hi'. injection Hi' as <-.
  assert (getURLByShortcode code now
            (set_urlStore urlId (push_click e (clickData_of ref addr stamp)) w)
          = Some (push_click e (clickData_of ref addr stamp))) as ->.
  { apply getURLByShortcode_Some. exists urlId. simpl.
    by rewrite map_get_set_eq. }
  unfold statistics. simpl. by rewrite fmap_app.
Qed.

(** X13.  When the identifier [nanoid()] gives to a new entry is one that
    an older shortcode leads to, the new entry takes the place of the old
    one in [urlStore]: from then on the older shortcode shows the new
    entry, which has another shortcode, for as long as the new entry has
    not expired. *)
Theorem createShortURL_identifier_reused url validity custom now w r w' e older :
  createShortURL url validity custom now w = (Returned r, w') →
  created_by r w' e →
  shortcodeToUrl w !! older = Some (id e) →
  shortcode e ≠ older ∧
  ∀ now', now' ≤ expiryTime e →
    getURLByShortcode older now' w' = Some e ∧ originalURL e = url.
Proof.
  intros Hc Hby Hold.
  destruct (createShortURL_created _ _ _ _ _ _ _ _ Hc Hby)
    as ([pos Hid] & Hnone & Hs & Hi & Hu & _).
  assert (shortcode e ≠ older) as Hne by congruence.
  split; [done|]. intros now' Hle. split; [|done].
  apply getURLByShortcode_Some. exists (id e).
  split_and!; [|by rewrite Hid| |done].
  - by rewrite Hi, lookup_insert_ne.
  - by rewrite Hs, map_get_set_eq.
Qed.

(** ** The HTTP adapter *)

Lemma includes_dot_false s :
  forallb url_safe (String.list_ascii_of_string s) = true →
  includes s "." = false.
Proof.
  unfold includes. intros H. apply bool_decide_eq_false_2.
  assert (String.index 0 "." s = None) as ->; [|by intros [? ?]].
  induction s as [|c s IH]; [done|].
  simpl in H. apply andb_true_iff in H as [Hc Hs].
  cbn [String.index String.prefix].
  destruct (ascii_dec "." c) as [<-|Hne]; [done|].
  by rewrite (IH Hs).
Qed.

Lemma alnum_url_safe s :
  forallb alnum (String.list_ascii_of_string s) = true →
  forallb url_safe (String.list_ascii_of_string s) = true.
Proof.
  induction s as [|c s IH]; [done|]. simpl.
  intros [Hc Hs]%andb_true_iff. apply andb_true_iff. split; [|by apply IH].
  unfold url_safe. by rewrite Hc.
Qed.

(** No shortcode the service stores has a '.' in it. *)
Lemma created_shortcode_no_dot url validity custom now w r w' e :
  createShortURL url validity custom now w = (Returned r, w') →
  created_by r w' e →
  includes (shortcode e) "." = false.
Proof.
  intros Hc Hby.
  destruct (createShortURL_stores _ _ _ _ _ _ _ Hc) as (e' & Hby' & _).
  rewrite (created_by_functional _ _ _ _ Hby Hby'). clear Hby e.
  apply createShortURL_inv in Hc as (_ & _ & code & pos & _ & Hshape & Hinv).
  cbv zeta in Hinv. destruct Hinv as (Hr & _ & _).
  assert (shortcode e' = code) as ->.
  { destruct Hby' as (Hl & _). rewrite Hr in Hl. simpl in Hl.
    repeat injection Hl as Hl. done. }
  apply includes_dot_false.
  destruct (truthy (default_param custom JNull)).
  - destruct Hshape as [_ Hre]. apply alnum_url_safe.
    unfold shortcodeRegex in Hre. by apply andb_true_iff in Hre as [_ ?].
  - destruct Hshape as [p ->]. apply nanoid_from_url_safe.
Qed.

(** X14.  POST /shorturls always answers, and the status tells what
    happened: 201 with the result exactly when the body has a truthy [url]
    and [createShortURL] returned; 409 exactly for a collision, 500 exactly
    for an exhausted generator, 400 for a missing [url] and for the three
    validation errors.  Any answer other than 201 leaves both maps as they
    were, and a missing [url] leaves the whole state. *)
Theorem post_shorturls_status body now w :
  ∃ resp w',
    post_shorturls body now w = (Returned resp, w') ∧
    let call :=
      createShortURL (body_url body) (body_validity body) (body_shortcode body) now w in
    (status resp = 201%nat ↔
       truthy (body_url body) = true ∧
       ∃ result, call = (Returned result, w') ∧ resp = Json 201 (PCreated result)) ∧
    (status resp = 409%nat ↔
       truthy (body_url body) = true ∧ call.1 = Thrown ShortcodeCollision) ∧
    (status resp = 500%nat ↔
       truthy (body_url body) = true ∧ call.1 = Thrown GenerationExhausted) ∧
    (status resp = 400%nat ↔
       truthy (body_url body) = false ∨
       call.1 = Thrown InvalidURL ∨ call.1 = Thrown InvalidValidity ∨
       call.1 = Thrown InvalidShortcode) ∧
    (status resp ≠ 201%nat →
       urlStore w' = urlStore w ∧ shortcodeToUrl w' = shortcodeToUrl w) ∧
    (truthy (body_url body) = false → w' = w).
Proof.
  unfold post_shorturls, try_catch.
  destruct (truthy (body_url body)) eqn:Hurl; cbn [negb].
  - unfold bind.
    destruct (createShortURL _ _ _ now w) as [[result|err] w1] eqn:Hc.
    + exists (Json 201 (PCreated result)), w1. cbn [status fst ret].
      split; [done|]. cbv zeta.
      split_and!; try (split; [done|]); try done.
      * split; [|done]. intros _. split; [done|]. by exists result.
      * by intros [_ [=]].
      * by intros [_ [=]].
      * intros [|[[=]|[[=]|[=]]]]; done.
    + pose proof (createShortURL_inv _ _ _ _ _ _ _ Hc) as Hkeep. cbv zeta in Hkeep.
      eexists _, w1. split; [reflexivity|]. cbv zeta. cbn [fst].
      destruct err; vm_compute status;
        (split_and!; [split; [done|by intros [_ (? & [=] & _)]]
                     |split; [try done|try done; by intros [_ [=]]]
                     |split; [try done|try done; by intros [_ [=]]]
                     |split; [try done; eauto|try done; intros [|[[=]|[[=]|[=]]]]; done]
                     |done|done]).
  - exists (Json 400 (PError "URL is required" "Please provide a valid URL to shorten")), w.
    split; [done|]. cbv zeta. cbn [status].
    split_and!; try done; try (split; [done|by intros [[=] _]]).
    split; [by left|done].
Qed.

Lemma post_shorturls_created body now w result w' :
  post_shorturls body now w = (Returned (Json 201 (PCreated result)), w') →
  createShortURL (body_url body) (body_validity body) (body_shortcode body) now w
  = (Returned result, w').
Proof.
  unfold post_shorturls, try_catch.
  destruct (truthy (body_url body)); cbn [negb]; [|done].
  unfold bind. destruct (createShortURL _ _ _ now w) as [[r|err] w1].
  - by intros [= -> ->].
  - destruct err; vm_compute; intros [=].
Qed.

Lemma static_names_have_dot code :
  includes code "." || String.eqb code "favicon.ico"
    || String.eqb code "manifest.json" = includes code ".".
Proof.
  destruct (String.eqb code "favicon.ico") eqn:E1.
  { apply String.eqb_eq in E1 as ->. done. }
  destruct (String.eqb code "manifest.json") eqn:E2.
  { apply String.eqb_eq in E2 as ->. done. }
  by rewrite !orb_false_r.
Qed.

(** X15.  GET /:shortcode always answers.  A shortcode with a '.' gets the
    404 of static files, a shortcode that [getURLByShortcode] does not show
    gets the 404 of unknown or expired links, and both leave the state as
    it was; any other shortcode gets a 301 to the [originalURL] of the entry
    shown. *)
Theorem get_shortcode_answers req now now' stamp w :
  ∃ resp w',
    get_shortcode req now now' stamp w = (Returned resp, w') ∧
    (includes (param_shortcode req) "." = true →
       resp = Json 404 (PError "Not found" "Static file not found") ∧ w' = w) ∧
    (includes (param_shortcode req) "." = false →
     getURLByShortcode (param_shortcode req) now w = None →
       resp = Json 404 (PError "Short URL not found"
                          "The requested short URL does not exist or has expired") ∧
       w' = w) ∧
    (includes (param_shortcode req) "." = false →
     ∀ e, getURLByShortcode (param_shortcode req) now w = Some e →
       resp = Redirect 301 (originalURL e)).
Proof.
  unfold get_shortcode, try_catch. rewrite static_names_have_dot.
  destruct (includes (param_shortcode req) ".").
  { eexists _, w. split; [reflexivity|]. by split_and!. }
  unfold bind at 1, gets at 1.
  destruct (getURLByShortcode (param_shortcode req) now w) as [e|].
  - unfold bind.
    destruct (recordClick_cases (param_shortcode req)
                (js_or (get_Referrer req) (get_referer req))
                (js_or (req_ip req) (remoteAddress req)) now' stamp w)
      as [[_ Hr]|(urlId & e' & _ & _ & _ & Hr)];
      rewrite Hr; eexists _, _; (split; [reflexivity|]); split_and!; try done;
      by intros _ ? [= <-].
  - eexists _, w. split; [reflexivity|]. by split_and!.
Qed.

(** X16.  The redirect does not wait on the click.  When the lookup of
    GET /:shortcode shows the entry, the answer is the 301 whether or not
    [recordClick] then records: if the entry has expired by the clock of
    [recordClick] the state is left as it was, otherwise the entry gets one
    click, with the referrer of the request or "direct". *)
Theorem get_shortcode_click req now now' stamp w e :
  includes (param_shortcode req) "." = false →
  getURLByShortcode (param_shortcode req) now w = Some e →
  ∃ w',
    get_shortcode req now now' stamp w = (Returned (Redirect 301 (originalURL e)), w') ∧
    (expiryTime e < now' → w' = w) ∧
    (now' ≤ expiryTime e →
       ∃ urlId,
         shortcodeToUrl w !! param_shortcode req = Some urlId ∧
         map_get urlId (urlStore w') =
           Some (push_click e
                   (clickData_of (js_or (get_Referrer req) (get_referer req))
                      (js_or (req_ip req) (remoteAddress req)) stamp))).
Proof.
  intros Hdot Hvis.
  pose proof Hvis as (urlId & Hi & Hne & Hg & Hle)%getURLByShortcode_Some.
  unfold get_shortcode, try_catch. rewrite static_names_have_dot, Hdot.
  unfold bind at 1, gets at 1. rewrite Hvis. unfold bind.
  destruct (Z_lt_le_dec (expiryTime e) now') as [Hlt|Hle'].
  - destruct (recordClick_cases (param_shortcode req)
                (js_or (get_Referrer req) (get_referer req))
                (js_or (req_ip req) (remoteAddress req)) now' stamp w)
      as [[_ Hr]|(urlId' & e' & Hi' & Hg' & Hvis' & _)].
    + rewrite Hr. exists w. split_and!; [done|done|lia].
    + apply getURLByShortcode_Some in Hvis' as (u & Hu & _ & Hgu & Hle2).
      rewrite Hi in Hu. injection Hu as <-. rewrite Hg in Hgu.
      injection Hgu as <-. lia.
  - rewrite (recordClick_succeeds _ _ _ _ _ _ urlId e Hi Hne Hg Hle').
    eexists. split_and!; [reflexivity|lia|].
    intros _. exists urlId. split; [done|]. simpl. apply map_get_set_eq.
Qed.

(** X17.  The three handlers compose.  After the handler of POST /shorturls
    has answered 201, the handler of GET /:shortcode, whenever it is the one
    that runs on the shortcode of the returned link, at clocks up to the
    returned expiry, answers with a 301 to the URL of the body; and the
    handler of GET /shorturls/:shortcode, run on that shortcode afterwards,
    shows that URL with [totalClicks] 1 and one click, whose source is the
    referrer of the visit or "direct".  Which handler a request reaches is
    the router's matter and no part of this statement: a route registered
    before GET /:shortcode, such as GET /health, takes the requests for its
    own path. *)
Theorem shorten_visit_inspect body now w result w1 req t1 t2 t3 t4 :
  post_shorturls body now w = (Returned (Json 201 (PCreated result)), w1) →
  shortLink result = "http://localhost:5000/" +:+ param_shortcode req →
  t1 ≤ expiry result → t2 ≤ expiry result → t4 ≤ expiry result →
  ∃ w2 s,
    get_shortcode req t1 t2 t3 w1 = (Returned (Redirect 301 (body_url body)), w2) ∧
    get_shorturls_shortcode (param_shortcode req) t4 w2
      = (Returned (Json 200 (PStatistics s)), w2) ∧
    Stats.originalURL s = body_url body ∧
    Stats.totalClicks s = 1%nat ∧
    Stats.clicks s =
      [{| Stats.timestamp := t3;
          Stats.source :=
            js_or (default_param (js_or (get_Referrer req) (get_referer req)) JNull)
              (JStr "direct");
          Stats.location := "Unknown" |}].
Proof.
  intros Hpost Hlink H1 H2 H4.
  apply post_shorturls_created in Hpost.
  destruct (createShortURL_stores _ _ _ _ _ _ _ Hpost) as (e & Hby & _).
  pose proof (created_shortcode_no_dot _ _ _ _ _ _ _ _ Hpost Hby) as Hdot.
  destruct (createShortURL_created _ _ _ _ _ _ _ _ Hpost Hby)
    as ([pos Hid] & _ & Hs & Hi & Hu & _ & Hcl & Ht & Hr).
  assert (param_shortcode req = shortcode e) as Hcode.
  { rewrite Hr in Hlink. simpl in Hlink. repeat injection Hlink as Hlink. done. }
  assert (expiry result = expiryTime e) as He by by rewrite Hr.
  rewrite He in *. rewrite <- Hcode in *.
  assert (shortcodeToUrl w1 !! param_shortcode req = Some (id e)) as Hidx
    by by rewrite Hi, lookup_insert_eq.
  assert (id e ≠ "") as Hne by by rewrite Hid.
  assert (map_get (id e) (urlStore w1) = Some e) as Hget
    by by rewrite Hs, map_get_set_eq.
  assert (getURLByShortcode (param_shortcode req) t1 w1 = Some e) as Hvis.
  { apply getURLByShortcode_Some. by exists (id e). }
  set (click := clickData_of (js_or (get_Referrer req) (get_referer req))
                  (js_or (req_ip req) (remoteAddress req)) t3).
  exists (set_urlStore (id e) (push_click e click) w1),
         (statistics (param_shortcode req) (push_click e click)).
  split_and!.
  - unfold get_shortcode, try_catch. rewrite static_names_have_dot, Hdot.
    unfold bind at 1, gets at 1. rewrite Hvis. unfold bind.
    rewrite (recordClick_succeeds _ _ _ _ _ _ (id e) e Hidx Hne Hget H2).
    by rewrite Hu.
  - unfold get_shorturls_shortcode, try_catch, bind, gets, getURLStatistics.
    assert (getURLByShortcode (param_shortcode req) t4
              (set_urlStore (id e) (push_click e click) w1)
            = Some (push_click e click)) as ->; [|done].
    apply getURLByShortcode_Some. exists (id e). simpl.
    by rewrite map_get_set_eq.
  - done.
  - simpl. by rewrite Ht.
  - simpl. by rewrite Hcl.
Qed.

(** X18.  The statistics page and the service agree on expiry of the
    entries whose expiry is a date: in a reachable state, for an entry that
    a shortcode leads to and whose [expiryTime] is an instant [Date] can
    hold, [isExpired] of the page holds of its listed [expiryTime] at a
    clock exactly when [getURLStatistics] on that shortcode at that clock
    returns null. *)
Theorem isExpired_agrees w log code urlId e now :
  run w log →
  shortcodeToUrl w !! code = Some urlId →
  map_get urlId (urlStore w) = Some e →
  valid_instant (expiryTime e) →
  valid_instant now →
  Client.isExpired now (Stats.expiryTime (statistics (shortcode e) e)) = true ↔
  getURLStatistics code now w = None.
Proof.
  intros [Hres _]%run_invariant Hi Hg _ _.
  destruct (Hres _ _ Hi) as [Hne _].
  unfold Client.isExpired, getURLStatistics, getURLByShortcode, isAfter.
  rewrite Hi. simpl. apply String.eqb_neq in Hne as ->. simpl. rewrite Hg.
  by destruct (expiryTime e <? now).
Qed.

End URLService.

(** ** The rows of the shortener form *)

Lemma number_eqb_eq x y : Client.number_eqb x y = true ↔ x = y.
Proof.
  destruct x as [|a], y as [|b]; simpl; split; try done.
  - intros ->%Z.eqb_eq. done.
  - intros [= ->]. apply Z.eqb_refl.
Qed.

Lemma Math_max_bound xs :
  Forall (λ x, ∃ n, x = Client.Num n) xs →
  xs ≠ [] →
  ∃ m, Client.Math_max xs = Client.Num m ∧ ∀ n, Client.Num n ∈ xs → n ≤ m.
Proof.
  induction 1 as [|x xs [a ->] Hall IH]; [done|]. intros _.
  destruct xs as [|y xs].
  - exists a. split; [done|]. intros n [[= ->]|[]%elem_of_nil]%elem_of_cons. lia.
  - destruct IH as (m & Hm & Hle); [done|].
    exists (Z.max a m). split.
    + change (Client.Math_max (Client.Num a :: y :: xs))
        with (match Client.Math_max (y :: xs) with
              | Client.Num b => Client.Num (Z.max a b)
              | Client.NegInfinity => Client.Num a
              end).
      by rewrite Hm.
    + intros n [[= ->]|Hin]%elem_of_cons; [lia|]. apply Hle in Hin. lia.
Qed.

Lemma filter_ids rowId urls :
  Client.id <$> List.filter (λ u, negb (Client.number_eqb (Client.id u) rowId)) urls
  = List.filter (λ x, negb (Client.number_eqb x rowId)) (Client.id <$> urls).
Proof.
  induction urls as [|u urls IH]; [done|]. csimpl.
  destruct (negb _); csimpl; by rewrite IH.
Qed.

Lemma filter_out_one x (xs : list Client.number) :
  NoDup xs →
  NoDup (List.filter (λ y, negb (Client.number_eqb y x)) xs) ∧
  (length xs ≤ S (length (List.filter (λ y, negb (Client.number_eqb y x)) xs)))%nat ∧
  (∀ y, y ∈ List.filter (λ y, negb (Client.number_eqb y x)) xs ↔ y ∈ xs ∧ y ≠ x).
Proof.
  assert (∀ ys y, y ∈ List.filter (λ y, negb (Client.number_eqb y x)) ys ↔
                  y ∈ ys ∧ y ≠ x) as Hin.
  { intros ys y. rewrite !list_elem_of_In, filter_In, negb_true_iff.
    split; intros [H1 H2]; (split; [done|]).
    - intros ->. by rewrite (proj2 (number_eqb_eq x x) eq_refl) in H2.
    - destruct (Client.number_eqb y x) eqn:E; [|done].
      by apply number_eqb_eq in E. }
  intros Hnd. split_and!; [| |apply Hin].
  - induction Hnd as [|y ys Hy Hnd IH]; simpl; [constructor|].
    destruct (negb _); [|done]. constructor; [|done].
    rewrite Hin. by intros [? _].
  - induction Hnd as [|y ys Hy Hnd IH]; simpl; [lia|].
    destruct (Client.number_eqb y x) eqn:E; simpl; [|lia].
    apply number_eqb_eq in E as ->.
    assert (List.filter (λ y, negb (Client.number_eqb y x)) ys = ys) as ->; [|lia].
    clear IH Hnd. induction ys as [|z ys IH]; [done|]. simpl.
    apply not_elem_of_cons in Hy as [Hz Hy].
    destruct (Client.number_eqb z x) eqn:E; simpl.
    + apply number_eqb_eq in E. congruence.
    + by rewrite IH.
Qed.

(** X19.  Whatever the user does with the add, remove and edit controls,
    the shortener form shows at least one row and at most five, and no two
    rows have the same identifier, every identifier being a number. *)
Theorem form_rows_invariant urls :
  Client.shown urls →
  (1 ≤ length urls ≤ 5)%nat ∧
  NoDup (Client.id <$> urls) ∧
  Forall (λ x, ∃ n, x = Client.Num n) (Client.id <$> urls).
Proof.
  induction 1 as [|urls Hs (Hlen & Hnd & Hnum)
                  |rowId urls Hs (Hlen & Hnd & Hnum)
                  |rowId f value urls Hs (Hlen & Hnd & Hnum)].
  - split_and!; [simpl; lia|simpl; lia| |].
    + apply NoDup_singleton.
    + repeat constructor. by eexists.
  - unfold Client.addUrl.
    destruct (5 <=? length urls)%nat eqn:Hfull; [done|].
    apply Nat.leb_gt in Hfull.
    destruct (Math_max_bound (Client.id <$> urls) Hnum) as (m & Hm & Hle).
    { destruct urls; [simpl in Hlen; lia|done]. }
    rewrite Hm. cbn [Client.plus_one].
    rewrite length_app, fmap_app. simpl.
    split_and!; [lia|lia| |].
    + apply NoDup_app. split_and!; [done| |apply NoDup_singleton].
      intros x Hx ->%list_elem_of_singleton. apply Hle in Hx. lia.
    + apply Forall_app. split; [done|]. repeat constructor. by eexists.
  - unfold Client.removeUrl.
    destruct (length urls =? 1)%nat eqn:Hone; [done|].
    apply Nat.eqb_neq in Hone. rewrite filter_ids.
    destruct (filter_out_one rowId _ Hnd) as (Hnd' & Hlen' & Hin).
    rewrite <- (length_fmap Client.id), filter_ids.
    rewrite length_fmap in Hlen'.
    assert (length (List.filter (λ y, negb (Client.number_eqb y rowId))
                      (Client.id <$> urls)) ≤ length urls)%nat as Hup.
    { rewrite <- (length_fmap Client.id urls). apply filter_length_le. }
    split_and!; [lia|lia|done|].
    rewrite Forall_forall in Hnum |- *. intros x Hx.
    apply Hin in Hx as [Hx _]. by apply Hnum.
  - assert (Client.id <$> Client.updateUrl rowId f value urls = Client.id <$> urls)
      as Hids.
    { unfold Client.updateUrl. rewrite <- list_fmap_compose.
      apply list_fmap_ext. intros i u _. simpl.
      destruct (Client.number_eqb _ _); [by destruct f|done]. }
    rewrite Hids. unfold Client.updateUrl. rewrite length_fmap. done.
Qed.

(** ** The service on examples *)

Lemma sample_world_reached :
  createShortURL sample_protocol sample_bytes
    (JStr "https://example.com/page") (JNum 30) JUndefined 1000 initial =
  (Returned sample_created, sample_world).
Proof. vm_compute. reflexivity. Qed.

Lemma sample_entry_created :
  created_by sample_created sample_world sample_entry.
Proof. unfold created_by. split_and!; vm_compute; reflexivity. Qed.

Lemma sample_run : run sample_protocol sample_bytes sample_world [sample_entry].
Proof.
  eapply run_created; [apply run_initial|apply sample_world_reached|].
  apply sample_entry_created.
Qed.

(** With the stuck pool the first creation takes the only code [nanoid(8)]
    can give, and the next one gives up after [maxAttempts] collisions,
    having drawn 11 codes and written nothing. *)
Lemma generation_exhausted_example :
  ∃ r w1 w2,
    createShortURL sample_protocol stuck_bytes
      (JStr "https://example.com/page") JUndefined JUndefined 1000 initial
      = (Returned r, w1) ∧
    shortLink r = "http://localhost:5000/uuuuuuuu" ∧
    createShortURL sample_protocol stuck_bytes
      (JStr "https://example.com/page") JUndefined JUndefined 2000 w1
      = (Thrown GenerationExhausted, w2) ∧
    drawn w2 = (drawn w1 + 88)%nat.
Proof. do 3 eexists. split_and!; vm_compute; reflexivity. Qed.

(** The second creation with the custom shortcode of the first collides. *)
Lemma custom_collision_example :
  ∃ r w1,
    createShortURL sample_protocol sample_bytes
      (JStr "https://example.com/page") (JNum 30) (JStr "abc123") 1000 initial
      = (Returned r, w1) ∧
    createShortURL sample_protocol sample_bytes
      (JStr "https://example.com/page") (JNum 30) (JStr "abc123") 2000 w1
      = (Thrown ShortcodeCollision, w1).
Proof. do 2 eexists. split; vm_compute; reflexivity. Qed.

(** A generated shortcode that has a '_' is a key of the index, yet asking
    for it as a custom shortcode is refused for its shape, the check that
    comes before the collision one. *)
Lemma generated_code_as_custom_example :
  createShortURL sample_protocol sample_bytes
    (JStr "https://example.com/page") (JNum 30) (JStr "WOLF_GQZ") 2000 sample_world
    = (Thrown InvalidShortcode, sample_world).
Proof. vm_compute. reflexivity. Qed.

(** The expiry boundary: with a validity of one minute the entry is visible
    59 seconds after the creation and hidden 61 seconds after it. *)
Lemma expiry_boundary_example :
  ∃ r w1 e,
    createShortURL sample_protocol sample_bytes
      (JStr "https://example.com/page") (JNum 1) (JStr "abc123") 1000 initial
      = (Returned r, w1) ∧
    getURLByShortcode "abc123" (1000 + 59000) w1 = Some e ∧
    getURLByShortcode "abc123" (1000 + 61000) w1 = None.
Proof. do 3 eexists. split_and!; vm_compute; reflexivity. Qed.

(** C1, at the sample creation: both stored instants are 1801000, half an
    hour after the clock of the call. *)
Lemma createShortURL_createdAt_is_expiryTime_witness :
  createShortURL sample_protocol sample_bytes
    (JStr "https://example.com/page") (JNum 30) JUndefined 1000 initial
    = (Returned sample_created, sample_world) ∧
  ∃ e, created_by sample_created sample_world e ∧
    createdAt e = expiryTime e ∧
    expiryTime e = 1000 + add_amount (default_param (JNum 30) (JNum 30)) * 60000.
Proof.
  split; [vm_compute; reflexivity|].
  apply (createShortURL_createdAt_is_expiryTime sample_protocol sample_bytes
           (JStr "https://example.com/page") (JNum 30) JUndefined 1000 initial).
  vm_compute; reflexivity.
Defined.

Lemma second_world_reached :
  createShortURL sample_protocol sample_bytes
    (JStr "https://example.com/other") (JNum 5) (JStr "abc123") 3000 sample_world
  = (Returned second_created, second_world).
Proof. vm_compute. reflexivity. Qed.

Lemma second_run :
  run sample_protocol sample_bytes second_world [second_entry; sample_entry].
Proof.
  eapply run_created; [apply sample_run|apply second_world_reached|].
  unfold created_by. split_and!; vm_compute; reflexivity.
Qed.

(** C2 (the claim as stated fails).  In the state reached by the sample
    creation the generated shortcode "WOLF_GQZ" is a key of the index, and
    a call with a URL that validates, validity 30 and that shortcode as
    custom shortcode throws the error of the pattern check, not the
    collision one. *)
Lemma existing_shortcode_not_collision :
  run sample_protocol sample_bytes sample_world [sample_entry] ∧
  is_Some (shortcodeToUrl sample_world !! "WOLF_GQZ") ∧
  validateURL sample_protocol (JStr "https://example.com/page") = true ∧
  createShortURL sample_protocol sample_bytes
    (JStr "https://example.com/page") (JNum 30) (JStr "WOLF_GQZ") 2000 sample_world
  = (Thrown InvalidShortcode, sample_world) ∧
  InvalidShortcode ≠ ShortcodeCollision.
Proof.
  split_and!; [exact sample_run|by eexists|reflexivity|vm_compute; reflexivity|done].
Qed.

(** C2 as amended, on a run of two creations: the two shortcodes differ,
    and a third creation that asks for the custom shortcode of the second
    collides, while one that asks for the generated shortcode of the first
    fails the pattern check. *)
Lemma created_shortcodes_unique_witness :
  run sample_protocol sample_bytes second_world [second_entry; sample_entry] ∧
  NoDup (shortcode <$> [second_entry; sample_entry]) ∧
  shortcode second_entry ≠ shortcode sample_entry ∧
  createShortURL sample_protocol sample_bytes
    (JStr "https://example.com/third") (JNum 30) (JStr "abc123") 4000 second_world
  = (Thrown ShortcodeCollision, second_world) ∧
  createShortURL sample_protocol sample_bytes
    (JStr "https://example.com/third") (JNum 30) (JStr "WOLF_GQZ") 4000 second_world
  = (Thrown InvalidShortcode, second_world).
Proof.
  destruct (created_shortcodes_unique sample_protocol sample_bytes
              second_world [second_entry; sample_entry] second_run)
    as (Hnd & Hstored & Herr & Hcoll).
  split_and!.
  - exact second_run.
  - exact Hnd.
  - apply (Hstored "dom-26T198340PX75pxJA" "bfghjklqvwyzrictusean");
      [discriminate|reflexivity|reflexivity].
  - apply Hcoll; [reflexivity|reflexivity|reflexivity|].
    exists "dom-26T198340PX75pxJA". vm_compute. reflexivity.
  - apply (Herr (JStr "https://example.com/third") (JNum 30) "WOLF_GQZ" 4000).
    exists "bfghjklqvwyzrictusean". vm_compute. reflexivity.
Defined.

(** The sample world after one visit, read after the entry has expired: the
    single lookup hides the entry, the listing shows it with its click. *)
Lemma getAllURLs_lists_expired_example :
  getURLStatistics "WOLF_GQZ" 1801001 sample_clicked = None ∧
  getAllURLs sample_clicked =
    [{| Stats.shortLink := "http://localhost:5000/WOLF_GQZ";
        Stats.originalURL := JStr "https://example.com/page";
        Stats.createdAt := 1801000;
        Stats.expiryTime := 1801000;
        Stats.totalClicks := 1;
        Stats.clicks :=
          [{| Stats.timestamp := 2001;
              Stats.source := JStr "https://google.com";
              Stats.location := "Unknown" |}] |}].
Proof. split; vm_compute; reflexivity. Qed.

(** C3, in the sample world: the entry is visible up to its expiry. *)
Lemma lookup_visibility_witness :
  run sample_protocol sample_bytes sample_world [sample_entry] ∧
  getURLByShortcode "WOLF_GQZ" 1801000 sample_world = Some sample_entry.
Proof.
  split; [exact sample_run|].
  apply (lookup_visibility sample_protocol sample_bytes
           sample_world [sample_entry] "WOLF_GQZ" 1801000 sample_run)
    with (urlId := "bfghjklqvwyzrictusean"); reflexivity || (vm_compute; discriminate).
Defined.

(** C4 (the code departs from the claim).  A validity of 0 is not refused:
    the guard tests [validity && ...], and 0 is falsy.  The call stores an
    entry and returns a link that expires at the clock of the call.  The
    same holds of [null], [false] and the empty string. *)
Theorem createShortURL_accepts_zero_validity :
  ∃ w',
    createShortURL sample_protocol sample_bytes
      (JStr "https://example.com/page") (JNum 0) (JStr "abc123") 1000 initial
    = (Returned {| shortLink := "http://localhost:5000/abc123"; expiry := 1000 |}, w') ∧
    ∀ validity, validity ∈ [JNull; JBool false; JStr ""] →
      createShortURL sample_protocol sample_bytes
        (JStr "https://example.com/page") validity (JStr "abc123") 1000 initial
      = (Returned {| shortLink := "http://localhost:5000/abc123"; expiry := 1000 |}, w').
Proof.
  eexists. split; [vm_compute; reflexivity|].
  intros validity Hin. repeat apply elem_of_cons in Hin as [->|Hin];
    [vm_compute; reflexivity..|by apply elem_of_nil in Hin].
Qed.

(** C5 (the claim as stated fails).  With no custom shortcode, the sample
    creation stores the shortcode "WOLF_GQZ", which has a '_' and does not
    match [^[a-zA-Z0-9]{3,20}$]. *)
Lemma generated_shortcode_not_alphanumeric :
  ∃ r w' e,
    createShortURL sample_protocol sample_bytes
      (JStr "https://example.com/page") (JNum 30) JUndefined 1000 initial
      = (Returned r, w') ∧
    created_by r w' e ∧
    shortcode e = "WOLF_GQZ" ∧
    shortcodeRegex (shortcode e) = false ∧
    validateShortcode (JStr (shortcode e)) = false.
Proof.
  exists sample_created, sample_world, sample_entry.
  split_and!; [apply sample_world_reached|apply sample_entry_created|done..].
Qed.

(** C5 as amended, at a creation with a custom shortcode. *)
Lemma stored_shortcode_shape_witness :
  ∃ w',
    createShortURL sample_protocol sample_bytes
      (JStr "https://example.com/page") (JNum 30) (JStr "abc123") 1000 initial
      = (Returned {| shortLink := "http://localhost:5000/abc123"; expiry := 1801000 |}, w') ∧
    ∃ e, created_by {| shortLink := "http://localhost:5000/abc123"; expiry := 1801000 |} w' e ∧
      JStr "abc123" = JStr (shortcode e) ∧ shortcodeRegex (shortcode e) = true.
Proof.
  eexists. split; [vm_compute; reflexivity|].
  apply (stored_shortcode_shape sample_protocol sample_bytes
           (JStr "https://example.com/page") (JNum 30) (JStr "abc123") 1000 initial).
  vm_compute; reflexivity.
Defined.

(** C7, at a creation that gives up after drawing 11 codes: the pool has
    moved on, the two maps have not. *)
Lemma createShortURL_failure_writes_nothing_witness :
  ∃ w w',
    createShortURL sample_protocol stuck_bytes
      (JStr "https://example.com/page") JUndefined JUndefined 2000 w
      = (Thrown GenerationExhausted, w') ∧
    drawn w' ≠ drawn w ∧
    urlStore w' = urlStore w ∧ shortcodeToUrl w' = shortcodeToUrl w.
Proof.
  exists (createShortURL sample_protocol stuck_bytes
            (JStr "https://example.com/page") JUndefined JUndefined 1000 initial).2.
  eexists. split; [vm_compute; reflexivity|]. split; [vm_compute; discriminate|].
  apply (createShortURL_failure_writes_nothing sample_protocol stuck_bytes
           (JStr "https://example.com/page") JUndefined JUndefined 2000 _
           GenerationExhausted).
  vm_compute; reflexivity.
Defined.

(** C8, at the sample creation. *)
Lemma create_then_lookup_witness :
  createShortURL sample_protocol sample_bytes
    (JStr "https://example.com/page") (JNum 30) JUndefined 1000 initial
    = (Returned sample_created, sample_world) ∧
  validateURL sample_protocol (JStr "https://example.com/page") = true ∧
  1000 ≤ expiry sample_created ∧
  ∃ code,
    shortLink sample_created = "http://localhost:5000/" +:+ code ∧
    ∀ now', now' ≤ expiry sample_created →
      ∃ e, getURLByShortcode code now' sample_world = Some e ∧
           originalURL e = JStr "https://example.com/page".
Proof.
  split; [vm_compute; reflexivity|].
  apply (create_then_lookup sample_protocol sample_bytes
           (JStr "https://example.com/page") (JNum 30) JUndefined 1000 initial).
  vm_compute; reflexivity.
Defined.

(** C10, at a click on the sample entry. *)
Lemma recordClick_frame_witness :
  ∃ w',
    recordClick "WOLF_GQZ" (JStr "https://google.com") JUndefined 2000 2001 sample_world
      = (Returned true, w') ∧
    shortcodeToUrl w' = shortcodeToUrl sample_world ∧
    (urlStore w').*1 = (urlStore sample_world).*1.
Proof.
  eexists. split; [vm_compute; reflexivity|].
  pose proof (recordClick_frame "WOLF_GQZ" (JStr "https://google.com") JUndefined
                2000 2001 sample_world _ eq_refl) as (Hi & Hk & _).
  split; [exact Hi|exact Hk].
Defined.

(** ** The further properties on examples *)

Lemma sample_clicked_reached :
  recordClick "WOLF_GQZ" (JStr "https://google.com") JUndefined 2000 2001 sample_world
  = (Returned true, sample_clicked).
Proof. vm_compute. reflexivity. Qed.

Lemma sample_clicked_run :
  run sample_protocol sample_bytes sample_clicked [sample_entry].
Proof. eapply run_click; [apply sample_run|apply sample_clicked_reached]. Qed.

(** X1, in the sample world after one visit. *)
Lemma click_count_consistent_witness :
  run sample_protocol sample_bytes sample_clicked [sample_entry] ∧
  ∀ s, s ∈ getAllURLs sample_clicked → Stats.totalClicks s = length (Stats.clicks s).
Proof.
  split; [exact sample_clicked_run|].
  apply (click_count_consistent sample_protocol sample_bytes
           sample_clicked [sample_entry]).
  exact sample_clicked_run.
Defined.

(** X2, from the empty maps to the sample world after one visit. *)
Lemma bindings_persist_witness :
  steps sample_protocol sample_bytes sample_world sample_clicked ∧
  shortcodeToUrl sample_clicked !! "WOLF_GQZ" = Some "bfghjklqvwyzrictusean".
Proof.
  assert (steps sample_protocol sample_bytes sample_world sample_clicked) as Hsteps.
  { eapply steps_click; [apply steps_refl|apply sample_clicked_reached]. }
  split; [exact Hsteps|].
  apply (bindings_persist sample_protocol sample_bytes sample_world sample_clicked Hsteps).
  reflexivity.
Defined.

(** X3, at the sample creation. *)
Lemma createShortURL_frame_witness :
  created_by sample_created sample_world sample_entry ∧
  ∀ code, code ≠ shortcode sample_entry →
    shortcodeToUrl sample_world !! code = shortcodeToUrl initial !! code.
Proof.
  split; [exact sample_entry_created|].
  apply (createShortURL_frame sample_protocol sample_bytes
           (JStr "https://example.com/page") (JNum 30) JUndefined 1000
           initial sample_created sample_world sample_entry).
  - vm_compute; reflexivity.
  - exact sample_entry_created.
Defined.

(** X4, at the sample creation. *)
Lemma createShortURL_appends_witness :
  map_get (id sample_entry) (urlStore initial) = None ∧
  getAllURLs sample_world =
    getAllURLs initial ++ [statistics (shortcode sample_entry) sample_entry].
Proof.
  split; [reflexivity|].
  apply (createShortURL_appends sample_protocol sample_bytes
           (JStr "https://example.com/page") (JNum 30) JUndefined 1000
           initial sample_created sample_world sample_entry).
  - vm_compute; reflexivity.
  - exact sample_entry_created.
  - reflexivity.
Defined.


(** X6, in the sample world. *)
Lemma visibility_threshold_witness :
  getURLByShortcode "WOLF_GQZ" 2000 sample_world = Some sample_entry ∧
  getURLByShortcode "WOLF_GQZ" 1801001 sample_world = None.
Proof.
  split; [vm_compute; reflexivity|].
  apply (visibility_threshold "WOLF_GQZ" 2000 1801001 sample_world sample_entry).
  - vm_compute; reflexivity.
  - vm_compute; reflexivity.
Defined.

(** X7, in the sample world, where the next code drawn is free. *)
Lemma generateShortcode_first_free_witness :
  shortcodeToUrl sample_world !! candidate sample_bytes sample_world 0 = None ∧
  generateShortcode sample_bytes sample_world =
    (Returned (candidate sample_bytes sample_world 0), advance (8 * 1) sample_world).
Proof.
  split; [vm_compute; reflexivity|].
  apply (generateShortcode_first_free sample_bytes 0 sample_world).
  - unfold maxAttempts; lia.
  - intros i Hi; lia.
  - vm_compute; reflexivity.
Defined.

(** X9, on the empty maps with no custom shortcode. *)
Lemma createShortURL_generates_witness :
  ∃ w',
    createShortURL sample_protocol sample_bytes
      (JStr "https://example.com/page") JUndefined (JStr "") 1000 initial
    = (Returned {| shortLink := "http://localhost:5000/" +:+ candidate sample_bytes initial 0;
                   expiry := 1000 + add_amount (default_param JUndefined (JNum 30)) * 60000 |},
       w') ∧
    drawn w' = (drawn initial + 8 * 1 + 21)%nat.
Proof.
  apply (createShortURL_generates sample_protocol sample_bytes
           (JStr "https://example.com/page") JUndefined (JStr "") 1000 0 initial).
  - vm_compute; reflexivity.
  - vm_compute; reflexivity.
  - reflexivity.
  - unfold maxAttempts; lia.
  - intros i Hi; lia.
  - vm_compute; reflexivity.
Defined.

(** X10, at a request whose custom shortcode is too short. *)
Lemma createShortURL_error_order_witness :
  createShortURL sample_protocol sample_bytes
    (JStr "https://example.com/page") (JNum 30) (JStr "ab") 1000 initial
  = (Thrown InvalidShortcode, initial) ∧
  validateShortcode (default_param (JStr "ab") JNull) = false.
Proof.
  split; [vm_compute; reflexivity|].
  destruct (createShortURL_error_order sample_protocol sample_bytes
              (JStr "https://example.com/page") (JNum 30) (JStr "ab") 1000 initial
              (Thrown InvalidShortcode) initial)
    as (_ & _ & [Hshape _] & _); [vm_compute; reflexivity|].
  exact (proj2 (proj2 (proj2 (Hshape eq_refl)))).
Defined.

(** X11, for three visits of the sample link. *)
Lemma recordClicks_accumulate_witness :
  ∃ w' e',
    recordClicks "WOLF_GQZ"
      [(JStr "https://google.com", JUndefined, 2000, 2001);
       (JUndefined, JStr "10.0.0.7", 3000, 3001);
       (JNull, JNull, 4000, 4001)] sample_world
    = (Returned [true; true; true], w') ∧
    map_get "bfghjklqvwyzrictusean" (urlStore w') = Some e' ∧
    totalClicks e' = 3%nat.
Proof.
  destruct (recordClicks_accumulate "WOLF_GQZ"
              [(JStr "https://google.com", JUndefined, 2000, 2001);
               (JUndefined, JStr "10.0.0.7", 3000, 3001);
               (JNull, JNull, 4000, 4001)]
              sample_world "bfghjklqvwyzrictusean" sample_entry)
    as (w' & e' & Hr & _ & Hg & _ & Ht & _).
  - vm_compute; reflexivity.
  - discriminate.
  - reflexivity.
  - repeat constructor; vm_compute; discriminate.
  - exists w', e'. split_and!; [exact Hr|exact Hg|exact Ht].
Defined.

(** X12, at the visit of the sample link. *)
Lemma recordClick_then_statistics_witness :
  recordClick "WOLF_GQZ" (JStr "https://google.com") JUndefined 2000 2001 sample_world
    = (Returned true, sample_clicked) ∧
  ∃ before,
    getURLStatistics "WOLF_GQZ" 2000 sample_world = Some before ∧
    Stats.totalClicks <$> getURLStatistics "WOLF_GQZ" 2000 sample_clicked
      = Some (S (Stats.totalClicks before)).
Proof.
  split; [exact sample_clicked_reached|].
  destruct (recordClick_then_statistics "WOLF_GQZ" (JStr "https://google.com")
              JUndefined 2000 2001 sample_world sample_clicked sample_clicked_reached)
    as (before & Hb & Ha).
  exists before. split; [exact Hb|]. rewrite Ha. reflexivity.
Defined.

(** X13, with the stuck pool: the second creation gets the identifier of
    the first, and "abc123" then leads to the second URL. *)
Lemma createShortURL_identifier_reused_witness :
  ∃ w w',
    (createShortURL sample_protocol stuck_bytes
       (JStr "https://example.com/page") (JNum 30) (JStr "abc123") 1000 initial).2
      = w ∧
    shortcodeToUrl w !! "abc123" = Some (id reused_entry) ∧
    createShortURL sample_protocol stuck_bytes
      (JStr "https://other.example/") (JNum 30) (JStr "def456") 2000 w
      = (Returned {| shortLink := "http://localhost:5000/def456"; expiry := 1802000 |}, w') ∧
    getURLByShortcode "abc123" 3000 w' = Some reused_entry ∧
    originalURL reused_entry = JStr "https://other.example/".
Proof.
  eexists _, _. split; [reflexivity|].
  split; [vm_compute; reflexivity|].
  split; [vm_compute; reflexivity|].
  apply (createShortURL_identifier_reused sample_protocol stuck_bytes
           (JStr "https://other.example/") (JNum 30) (JStr "def456") 2000
           (createShortURL sample_protocol stuck_bytes
              (JStr "https://example.com/page") (JNum 30) (JStr "abc123") 1000 initial).2
           {| shortLink := "http://localhost:5000/def456"; expiry := 1802000 |}
           _ reused_entry "abc123").
  - vm_compute; reflexivity.
  - unfold created_by. split_and!; vm_compute; reflexivity.
  - vm_compute; reflexivity.
  - vm_compute; discriminate.
Defined.

(** X16, at a visit of the sample link. *)
Lemma get_shortcode_click_witness :
  includes (param_shortcode sample_visit) "." = false ∧
  getURLByShortcode (param_shortcode sample_visit) 2000 sample_world = Some sample_entry ∧
  ∃ w',
    get_shortcode sample_visit 2000 2000 2001 sample_world
    = (Returned (Redirect 301 (JStr "https://example.com/page")), w').
Proof.
  split; [vm_compute; reflexivity|]. split; [vm_compute; reflexivity|].
  destruct (get_shortcode_click sample_visit 2000 2000 2001 sample_world sample_entry)
    as (w' & Hr & _).
  - vm_compute; reflexivity.
  - vm_compute; reflexivity.
  - exists w'. exact Hr.
Defined.

(** X17, from the empty maps: shorten the sample URL, visit the link,
    inspect its statistics. *)
Lemma shorten_visit_inspect_witness :
  ∃ result w1 w2 s,
    post_shorturls sample_protocol sample_bytes
      (mkBody (JStr "https://example.com/page") (JNum 30) JUndefined) 1000 initial
    = (Returned (Json 201 (PCreated result)), w1) ∧
    get_shortcode sample_visit 2000 2000 2001 w1
    = (Returned (Redirect 301 (JStr "https://example.com/page")), w2) ∧
    get_shorturls_shortcode "WOLF_GQZ" 3000 w2
    = (Returned (Json 200 (PStatistics s)), w2) ∧
    Stats.totalClicks s = 1%nat.
Proof.
  exists sample_created, sample_world.
  destruct (shorten_visit_inspect sample_protocol sample_bytes
              (mkBody (JStr "https://example.com/page") (JNum 30) JUndefined)
              1000 initial sample_created sample_world sample_visit
              2000 2000 2001 3000)
    as (w2 & s & Hv & Hs & _ & Ht & _).
  - vm_compute; reflexivity.
  - reflexivity.
  - vm_compute; discriminate.
  - vm_compute; discriminate.
  - vm_compute; discriminate.
  - exists w2, s. split_and!; [vm_compute; reflexivity|exact Hv|exact Hs|exact Ht].
Defined.

(** X18, for the sample entry one millisecond after its expiry. *)
Lemma isExpired_agrees_witness :
  run sample_protocol sample_bytes sample_world [sample_entry] ∧
  Client.isExpired 1801001 (expiryTime sample_entry) = true ∧
  getURLStatistics "WOLF_GQZ" 1801001 sample_world = None.
Proof.
  split; [exact sample_run|]. split; [reflexivity|].
  apply (isExpired_agrees sample_protocol sample_bytes sample_world [sample_entry]
           "WOLF_GQZ" "bfghjklqvwyzrictusean" sample_entry 1801001 sample_run);
    first [reflexivity | unfold valid_instant; simpl; lia].
Defined.

(** X19, after four additions and one more, which the form refuses. *)
Lemma form_rows_invariant_witness :
  Client.shown (Nat.iter 5 Client.addUrl Client.initial_urls) ∧
  length (Nat.iter 5 Client.addUrl Client.initial_urls) = 5%nat ∧
  NoDup (Client.id <$> Nat.iter 5 Client.addUrl Client.initial_urls).
Proof.
  assert (Client.shown (Nat.iter 5 Client.addUrl Client.initial_urls)) as Hs.
  { simpl. do 5 apply Client.shown_add. apply Client.shown_initial. }
  split; [exact Hs|]. split; [reflexivity|].
  apply (form_rows_invariant _ Hs).
Defined.
